(** * elasticstore: replication handlers and query bridge

    A shallow embedding of [src/util/FirestoreHandler.ts] and
    [src/util/SearchHandler.ts].

    - JavaScript values are an inductive type; objects are association
      lists in [Object.keys] order, so that field order is part of the
      model.
    - The listener table of a collection handler and the control
      collection of the query bridge are finite maps.
    - Calls to the search backend and to the document store are recorded
      as effects; the backend's answers come from an oracle, which may
      reject any call. *)

From Stdlib Require Import ZArith List Bool Permutation.
From stdpp Require Import base strings gmap.
Import ListNotations.

Local Open Scope string_scope.
Local Open Scope list_scope.
Local Open Scope Z_scope.

Set Warnings "-register-all".

(** ** Exceptions *)

Record Error := {
  name : string;
  message : string;
}.

(** [Error.prototype.toString]. *)
Definition error_toString (e : Error) : string :=
  if String.eqb (name e) "" then message e
  else if String.eqb (message e) "" then name e
  else name e +:+ ": " +:+ message e.

Inductive completion (A : Type) : Type :=
| Normal (a : A)
| Throw (e : Error).
Arguments Normal {A} a.
Arguments Throw {A} e.

(** ** JavaScript values *)

Module JS.

Inductive value : Type :=
| VUndefined
| VNull
| VBool (b : bool)
| VNum (n : Z)            (* integer-valued numbers *)
| VNaN
| VStr (s : string)
| VDate (ms : Z)          (* [Date], milliseconds since the epoch *)
| VArr (elems : list value)
| VObj (props : list (string * value)).

(** A plain object: its own properties, in [Object.keys] order. *)
Abbreviation object := (list (string * value)).

(** [ToBoolean]: what [if (v)] and [!v] test. *)
Definition truthy (v : value) : bool :=
  match v with
  | VUndefined | VNull | VNaN => false
  | VBool b => b
  | VNum n => negb (n =? 0)
  | VStr s => negb (String.eqb s "")
  | VDate _ | VArr _ | VObj _ => true
  end.

(** [typeof v === 'object'] (true for [null]). *)
Definition typeof_object (v : value) : bool :=
  match v with
  | VNull | VDate _ | VArr _ | VObj _ => true
  | _ => false
  end.

Definition keys (o : object) : list string := map fst o.

(** [o[k]] on a plain object: the own property, else [undefined]. *)
Fixpoint obj_get (o : object) (k : string) : value :=
  match o with
  | [] => VUndefined
  | (k', v) :: o' => if String.eqb k' k then v else obj_get o' k
  end.

(** [delete o[k]]. *)
Definition obj_delete (k : string) (o : object) : object :=
  List.filter (fun p => negb (String.eqb (fst p) k)) o.

(** [o[k] = v]: overwrite in place, or append a new property.  Keys are
    ordinary property names; where the engine lists a new key among the
    others is not modelled, reads through [obj_get] do not depend on
    it. *)
Fixpoint obj_set (k : string) (v : value) (o : object) : object :=
  match o with
  | [] => [(k, v)]
  | (k', v') :: o' =>
      if String.eqb k' k then (k', v) :: o' else (k', v') :: obj_set k v o'
  end.

(** [o[k] = v] on an object made by [{}] and used as a map.  Assigning
    to the key [__proto__] goes to the setter [Object.prototype] has
    under that name: it changes the prototype of [o], or does nothing,
    and adds no own property. *)
Definition obj_assign (k : string) (v : value) (o : object) : object :=
  if String.eqb k "__proto__" then o else obj_set k v o.

(** [arr.indexOf(x)] on an array of strings. *)
Fixpoint indexOf_from (i : Z) (l : list string) (x : string) : Z :=
  match l with
  | [] => -1
  | y :: l' => if String.eqb y x then i else indexOf_from (i + 1) l' x
  end.

Definition indexOf (l : list string) (x : string) : Z := indexOf_from 0 l x.

(** Membership as a boolean, for stating results. *)
Definition mem (x : string) (l : list string) : bool :=
  existsb (String.eqb x) l.

Definition TypeError (msg : string) : Error :=
  {| name := "TypeError"; message := msg |}.

(** [v[k]] on any value, for the property names the handlers read
    ([index], [type], [q], [body], [error], [hits], [_id]): reading from
    [undefined] or [null] throws; a plain object yields its own property;
    strings, numbers, booleans, dates and arrays define none of these
    names. *)
Definition get (v : value) (k : string) : completion value :=
  match v with
  | VUndefined =>
      Throw (TypeError ("Cannot read property '" +:+ k +:+ "' of undefined"))
  | VNull =>
      Throw (TypeError ("Cannot read property '" +:+ k +:+ "' of null"))
  | VObj o => Normal (obj_get o k)
  | _ => Normal VUndefined
  end.

(** [v[k] = x] in strict mode, returning the updated value.  A named
    property set on an array or a [Date] is not part of the value the
    document store serialises, so the value is returned as it was. *)
Definition set (v : value) (k : string) (x : value) : completion value :=
  match v with
  | VObj o => Normal (VObj (obj_set k x o))
  | VArr _ | VDate _ => Normal v
  | VUndefined =>
      Throw (TypeError ("Cannot set property '" +:+ k +:+ "' of undefined"))
  | VNull =>
      Throw (TypeError ("Cannot set property '" +:+ k +:+ "' of null"))
  | _ => Throw (TypeError ("Cannot create property '" +:+ k +:+ "'"))
  end.

(** What [o[k].call()] meets when [k] is not an own property of an
    object [o] made by [{}]: the member of [Object.prototype] of that
    name.  Called through [.call()], that is with no receiver and no
    argument, [constructor], [isPrototypeOf] and [toString] return; the
    other functions convert their receiver to an object first and throw;
    [__proto__] reads as the prototype itself, which has no [call].  The
    text of the messages varies with the engine. *)
Inductive inherited :=
| nothing                 (* no such member: [undefined] *)
| returns                 (* a function that returns *)
| throws (e : Error).     (* a value whose [.call()] throws *)

Definition Object_prototype (k : string) : inherited :=
  if mem k ["constructor"; "isPrototypeOf"; "toString"] then returns
  else if mem k ["hasOwnProperty"; "propertyIsEnumerable"; "valueOf";
                 "toLocaleString"; "__defineGetter__"; "__defineSetter__";
                 "__lookupGetter__"; "__lookupSetter__"]
  then throws (TypeError "Cannot convert undefined or null to object")
  else if String.eqb k "__proto__"
  then throws (TypeError "call is not a function")
  else nothing.

(** The elements a [for ... of] loop visits: those of an array, the
    characters of a string; other values are not iterable. *)
Definition iterate (v : value) : completion (list value) :=
  match v with
  | VArr elems => Normal elems
  | VStr s =>
      Normal (map (fun c => VStr (String c EmptyString)) (String.list_ascii_of_string s))
  | _ => Throw (TypeError "object is not iterable")
  end.

End JS.

(** ** Exceptions and effects

    A computation completes normally or throws, and leaves a trace of
    the effects it performed up to that point. *)

Import JS.

Definition M (E A : Type) : Type := (completion A * list E)%type.

Definition ret {E A} (a : A) : M E A := (Normal a, []).

Definition throw {E A} (e : Error) : M E A := (Throw e, []).

Definition emit {E} (e : E) : M E unit := (Normal tt, [e]).

Definition lift {E A} (c : completion A) : M E A := (c, []).

Definition bind {E A B} (m : M E A) (k : A -> M E B) : M E B :=
  match m with
  | (Normal a, t) => let '(r, t') := k a in (r, t ++ t')
  | (Throw e, t) => (Throw e, t)
  end.

Notation "'let*' x ':=' c1 'in' c2" := (bind c1 (fun x => c2))
  (at level 10, x name, c1 at level 100, c2 at level 200, only parsing).

(** [try { m } catch (e) { h e }]. *)
Definition try_catch {E A} (m : M E A) (h : Error -> M E A) : M E A :=
  match m with
  | (Throw e, t) => let '(r, t') := h e in (r, t ++ t')
  | (Normal a, t) => (Normal a, t)
  end.

(** [Array.prototype.forEach]: the callback runs on each element in
    order; an exception thrown by the callback ends the loop. *)
Fixpoint forEach {E A} (cb : A -> M E unit) (l : list A) : M E unit :=
  match l with
  | [] => ret tt
  | x :: l' => let* _ := cb x in forEach cb l'
  end.

(** The state in which the promise of an [async] function settles. *)
Inductive settled := Fulfilled | Rejected (e : Error).

Definition settle {E A} (m : M E A) : settled :=
  match fst m with
  | Normal _ => Fulfilled
  | Throw e => Rejected e
  end.

(** ** Replication descriptors ([Reference] of [src/types]) *)

Record DocumentSnapshot := {
  doc_id : string;
  doc_data : object;
}.

Inductive FirebaseDocChangeType := added | modified | removed.

Record DocumentChange := {
  change_type : FirebaseDocChangeType;
  change_doc : DocumentSnapshot;
}.

(** A query snapshot, as far as the handlers read it. *)
Abbreviation QuerySnapshot := (list DocumentChange).

(** [index] and [type] are literals or functions of the batch and the
    parent snapshot. *)
Inductive DynamicTypeIndex :=
| Literal (s : string)
| Computed (f : QuerySnapshot -> option DocumentSnapshot -> string).

(** A query on the document store: a collection, and what the builders
    of a descriptor add to it. *)
Inductive Query :=
| collection_query (path : string)
| where_query (q : Query) (fieldPath opStr : string) (v : value)
| orderBy_query (q : Query) (fieldPath : string)
| limit_query (q : Query) (n : Z).

Record Reference := {
  collection : string;
  subcollection : option string;
  index : DynamicTypeIndex;
  type : DynamicTypeIndex;
  include : option (list string);
  exclude : option (list string);
  r_filter : option (object -> bool);   (* the descriptor's [filter] *)
  transform : option (object -> option DocumentSnapshot -> value);
  subBuilder : option (Query -> Query);
}.

(** ** FirestoreCollectionHandler: the record pipeline *)

Module FirestoreCollectionHandler.

(** The [include] loop: every key of the document that [include] does
    not list is deleted. *)
Definition apply_include (inc : list string) (data : object) : object :=
  fold_left
    (fun d key => if indexOf inc key =? -1 then obj_delete key d else d)
    (keys data) data.

(** The [exclude] loop: a listed key is deleted when [data[key]] is
    truthy. *)
Definition apply_exclude (exc : list string) (data : object) : object :=
  fold_left
    (fun d key => if truthy (obj_get d key) then obj_delete key d else d)
    exc data.

(** [filter]: [None] is the [null] returned for a suppressed record. *)
Definition filter (record : Reference) (data : object) : option object :=
  let shouldInsert :=
    match r_filter record with
    | Some f => f data
    | None => true
    end in
  if negb shouldInsert then None
  else
    let data1 :=
      match include record with
      | Some inc => apply_include inc data
      | None => data
      end in
    let data2 :=
      match exclude record with
      | Some exc => apply_exclude exc data1
      | None => data1
      end in
    Some data2.

(** *** The search backend, as the handlers call it *)

Inductive request :=
| client_exists (id index type : string)
| client_update (id index type : string) (body : value) (retryOnConflict : Z)
| client_index (id index type : string) (body : value)
| client_delete (id index type : string).

(** The promise a backend call returns resolves to a value or rejects. *)
Inductive response := Resolve (v : value) | Reject (e : Error).

Inductive effect :=
| Call (r : request)
| console_error (line : string).

(** What one change of a batch set in motion: the promise of its handler
    and the effects the handler performed. *)
Record task := {
  task_change : DocumentChange;
  task_settled : settled;
  task_effects : list effect;
}.

Section Dispatcher.

Variable client : request -> response.
Variable record : Reference.

(** [await this.client.m(params)]. *)
Definition await (r : request) : M effect value :=
  let* _ := emit (Call r) in
  match client r with
  | Resolve v => ret v
  | Reject e => throw e
  end.

Definition handleAdded (doc : DocumentSnapshot)
    (parentSnap : option DocumentSnapshot) (index type : string)
    : M effect unit :=
  match filter record (doc_data doc) with
  | None => ret tt
  | Some data =>
      let body :=
        match transform record with
        | Some f => f data parentSnap
        | None => VObj data
        end in
      try_catch
        (let* exists_ := await (client_exists (doc_id doc) index type) in
         if truthy exists_ then
           let* _ := await (client_update (doc_id doc) index type
                         (VObj [("doc", body); ("doc_as_upsert", VBool true)]) 2) in
           ret tt
         else
           let* _ := await (client_index (doc_id doc) index type body) in
           ret tt)
        (fun e =>
           emit (console_error
                   ("Error in `FS_ADDED` handler [doc@" +:+ doc_id doc
                      +:+ "]: " +:+ message e)))
  end.

Definition handleModified (doc : DocumentSnapshot)
    (parentSnap : option DocumentSnapshot) (index type : string)
    : M effect unit :=
  match filter record (doc_data doc) with
  | None => ret tt
  | Some data =>
      let body :=
        match transform record with
        | Some f => f data parentSnap
        | None => VObj data
        end in
      try_catch
        (let* _ := await (client_update (doc_id doc) index type
                       (VObj [("doc", body)]) 2) in
         ret tt)
        (fun e =>
           emit (console_error
                   ("Error in `FS_MODIFIED` handler [doc@" +:+ doc_id doc
                      +:+ "]: " +:+ message e)))
  end.

Definition handleRemoved (doc : DocumentSnapshot) (index type : string)
    : M effect unit :=
  try_catch
    (let* _ := await (client_delete (doc_id doc) index type) in ret tt)
    (fun e =>
       emit (console_error
               ("Error in `FS_REMOVE` handler [doc@" +:+ doc_id doc
                  +:+ "]: " +:+ message e))).

(** Calling an [async] handler without awaiting it: the call returns a
    promise and never throws; the handler's effects belong to the task. *)
Definition async (change : DocumentChange) (m : M effect unit)
    : M task unit :=
  emit {| task_change := change;
          task_settled := settle m;
          task_effects := snd m |}.

Definition resolve (d : DynamicTypeIndex) (snap : QuerySnapshot)
    (parentSnap : option DocumentSnapshot) : string :=
  match d with
  | Literal s => s
  | Computed f => f snap parentSnap
  end.

(** The callback [handleSnapshot(parentSnap)] runs on each change of the
    batch [snap]. *)
Definition dispatch (parentSnap : option DocumentSnapshot)
    (snap : QuerySnapshot) (change : DocumentChange) : M task unit :=
  let index := resolve (index record) snap parentSnap in
  let type := resolve (type record) snap parentSnap in
  match change_type change with
  | added =>
      async change (handleAdded (change_doc change) parentSnap index type)
  | modified =>
      async change (handleModified (change_doc change) parentSnap index type)
  | removed =>
      async change (handleRemoved (change_doc change) index type)
  end.

(** The listener [handleSnapshot(parentSnap)] applied to a batch. *)
Definition handleSnapshot (parentSnap : option DocumentSnapshot)
    (snap : QuerySnapshot) : M task unit :=
  forEach (dispatch parentSnap snap) snap.

End Dispatcher.

(** *** The listener table of a subcollection binding *)

(** What the handler asks of the change feed: [onSnapshot] opens a
    listener on a query and returns its unsubscribe function, here the
    number [h]; calling that function is [unsubscribe h]. *)
Inductive feed_effect :=
| onSnapshot (query : Query) (parentSnap : DocumentSnapshot) (h : nat)
| unsubscribe (h : nat).

(** [this.listeners], an object made by [{}]: its own properties, each
    the unsubscribe function of a listener.  An assignment to the key
    [__proto__] puts the function in the place of the object's prototype
    instead; the map holds it under that key, where reading [__proto__]
    finds it.  Such a table inherits the members of a function; they are
    not modelled.  It takes a parent named [__proto__] to get one, and
    the document store allows no identifier of the form [__.*__]. *)
Record Registry := {
  listeners : gmap string nat;
  next_handle : nat;
}.

Section Binding.

Variable record : Reference.

Definition subcollection_path (id : string) : string :=
  collection record +:+ "/" +:+ id +:+ "/" +:+
  match subcollection record with
  | Some sub => sub
  | None => "undefined"
  end.

(** The body of the [forEach] callback of [handleBindingSubcollection]. *)
Definition bindChange (st : Registry) (change : DocumentChange)
    : M feed_effect Registry :=
  let id := doc_id (change_doc change) in
  match change_type change with
  | added =>
      let subref := collection_query (subcollection_path id) in
      let subref :=
        match subBuilder record with
        | Some build => build subref
        | None => subref
        end in
      let h := next_handle st in
      let* _ := emit (onSnapshot subref (change_doc change) h) in
      ret {| listeners := <[id := h]> (listeners st);
             next_handle := S h |}
  | removed =>
      match listeners st !! id with
      | Some h => let* _ := emit (unsubscribe h) in ret st
      | None =>
          (* no own property [id]: the member [Object.prototype] has of
             that name, if any, is what [.call()] is invoked on *)
          match Object_prototype id with
          | throws e => throw e
          | returns | nothing => ret st
          end
      end
  | modified => ret st
  end.

Fixpoint handleBindingSubcollection (st : Registry) (snap : QuerySnapshot)
    : M feed_effect Registry :=
  match snap with
  | [] => ret st
  | change :: snap' =>
      let* st' := bindChange st change in
      handleBindingSubcollection st' snap'
  end.

End Binding.

(** *** Binding a handler to its collection *)

Module Bind.

(** The index administration calls of [bind]; [index] and [type] are
    passed as the descriptor holds them. *)
Inductive admin_request :=
| indices_exists (index : DynamicTypeIndex)
| indices_create (index : DynamicTypeIndex)
| indices_putMapping (index type : DynamicTypeIndex)
    (includeTypeName : bool) (body : value).

(** The listener [bind] puts on the root query: [handleBindingSubcollection]
    or [handleSnapshot()]. *)
Inductive root_listener := on_parents | on_documents.

Inductive bind_effect :=
| Admin (r : admin_request)
| ref_onSnapshot (l : root_listener).

Section Provision.

Variable indices : admin_request -> response.
Variable record : Reference.

(** The descriptor's [mappings]; [VUndefined] when it has none. *)
Variable mappings : value.

Definition await_indices (r : admin_request) : M bind_effect value :=
  let* _ := emit (Admin r) in
  match indices r with
  | Resolve v => ret v
  | Reject e => throw e
  end.

(** [if (this.record.subcollection)]: a name that is not empty. *)
Definition has_subcollection : bool :=
  match subcollection record with
  | Some sub => negb (String.eqb sub "")
  | None => false
  end.

Definition bind : M bind_effect unit :=
  let* _ :=
    (if truthy mappings then
       let* exists_ := await_indices (indices_exists (index record)) in
       if negb (truthy exists_) then
         let* _ := await_indices (indices_create (index record)) in
         let* _ :=
           await_indices
             (indices_putMapping (index record) (type record) true
                (VObj [("properties", mappings)])) in
         ret tt
       else ret tt
     else ret tt) in
  if has_subcollection then emit (ref_onSnapshot on_parents)
  else emit (ref_onSnapshot on_documents).

End Provision.

End Bind.

End FirestoreCollectionHandler.

(** ** SearchHandler: the query bridge

    The effects of a call are those it performs before it returns.  A
    search is issued with a callback; the backend calls it with its
    answer later, after the listener that issued the search has
    returned. *)

Module SearchHandler.

(** The values [src/config] supplies. *)
Record Config := {
  FB_REQ : string;
  FB_RES : string;
  CLEANUP_INTERVAL : Z;
}.

(** The two arguments of the callback of [client.search]. *)
Inductive search_result :=
| search_error (error : Error)
| search_response (response : value).

(** [client_search request ref] is [client.search(request, callback)]
    with the callback [process] makes for the record [ref]. *)
Inductive effect :=
| client_search (request : value) (ref : string)
| ref_update (ref : string) (data : object)
| unhandled_rejection (e : Error).

Definition invalid_query : string :=
  "Queries are required to have an `index`, `type` and either a `q`:string or `body`".

Section Bridge.

Variable config : Config.

(** The runtime's [JSON.parse] applied to a value that is not an object
    ([None] when it throws), and its string conversion of a value that is
    not a string. *)
Variable JSON_parse : value -> option value.
Variable ToString : value -> string.

(** The clock read by [send] when it stamps the response for a
    record. *)
Variable new_Date : string -> Z.

(** [v.toString()], and the property key [v] is converted to. *)
Definition toString (v : value) : string :=
  match v with
  | VStr s => s
  | _ => ToString v
  end.

(** Calling an [async] method without awaiting it: the call itself never
    throws; an exception inside rejects a promise nobody handles. *)
Definition async (m : M effect unit) : M effect unit :=
  match m with
  | (Normal _, t) => (Normal tt, t)
  | (Throw e, t) => (Normal tt, t ++ [unhandled_rejection e])
  end.

(** [respondError]; callers pass [message] already converted with
    [toString], which is the identity on the string it then holds. *)
Definition respondError (ref : string) (message : string) : M effect unit :=
  let data :=
    obj_set (FB_RES config)
      (VObj [("total", VNum 0); ("error", VStr message)]) [] in
  emit (ref_update ref data).

Definition send (ref : string) (response : value) : M effect unit :=
  let data := obj_set (FB_RES config) response [] in
  let* stamped :=
    lift (set (obj_get data (FB_RES config)) "timestamp"
            (VDate (new_Date ref))) in
  emit (ref_update ref (obj_set (FB_RES config) stamped data)).

(** The loop [for (const hit of hits) temp[hit._id] = hit]. *)
Fixpoint rekey (temp : object) (hits : list value) : completion object :=
  match hits with
  | [] => Normal temp
  | hit :: hits' =>
      match get hit "_id" with
      | Normal id => rekey (obj_assign (toString id) hit temp) hits'
      | Throw e => Throw e
      end
  end.

(** [response.hits.hits = temp] changes the object [response.hits]
    refers to: [response] sees the new [hits] under the same key. *)
Definition with_hits (response hits' : value) : value :=
  match response with
  | VObj o => VObj (obj_set "hits" hits' o)
  | v => v
  end.

Definition respond (ref : string) (response : value) : M effect unit :=
  let* error := lift (get response "error") in
  if truthy error then async (respondError ref (toString error))
  else
    let* hits := lift (get response "hits") in
    let* response' :=
      (if truthy hits then
         let* inner := lift (get hits "hits") in
         if truthy inner then
           let* elems := lift (iterate inner) in
           let* temp := lift (rekey [] elems) in
           let* hits' := lift (set hits "hits" (VObj temp)) in
           ret (with_hits response hits')
         else ret response
       else ret response) in
    async (send ref response').

(** [!request.index || !request.type || (!request.q && !request.body)],
    evaluated left to right with short circuit. *)
Definition invalid (request : value) : M effect bool :=
  let* index := lift (get request "index") in
  if negb (truthy index) then ret true
  else
    let* type := lift (get request "type") in
    if negb (truthy type) then ret true
    else
      let* q := lift (get request "q") in
      if negb (truthy q) then
        let* body := lift (get request "body") in
        ret (negb (truthy body))
      else ret false.

(** The request after the parse step of [process]. *)
Definition parse_request (request : value) : value :=
  if negb (typeof_object request) then
    match JSON_parse request with
    | Some parsed => parsed
    | None => request
    end
  else request.

(** The callback [process] gives to [client.search] for the record
    [ref]; [answer] is what the backend calls it with. *)
Definition search_callback (ref : string) (answer : search_result)
    : M effect unit :=
  match answer with
  | search_error error => async (respondError ref (error_toString error))
  | search_response response => async (respond ref response)
  end.

(** [process]; the reference of a control record is its identifier. *)
Definition process (snap : DocumentSnapshot) : M effect unit :=
  let request := parse_request (obj_get (doc_data snap) (FB_REQ config)) in
  let* bad := invalid request in
  if bad then async (respondError (doc_id snap) invalid_query)
  else emit (client_search request (doc_id snap)).

Definition handleSnapshot (snap : QuerySnapshot) : M effect unit :=
  forEach
    (fun change =>
       match change_type change with
       | added => process (change_doc change)
       | _ => ret tt
       end)
    snap.

End Bridge.

(** *** The control collection and the cleanup sweep *)

Abbreviation store := (gmap string object).

(** The own property [k] of [o], if there is one. *)
Fixpoint own (o : object) (k : string) : option value :=
  match o with
  | [] => None
  | (k', v) :: o' => if String.eqb k' k then Some v else own o' k
  end.

(** The field of a document at a dotted path. *)
Definition field (data : object) (path : list string) : option value :=
  match path with
  | [] => None
  | k :: path' =>
      fold_left
        (fun acc k' =>
           match acc with
           | Some (VObj o) => own o k'
           | _ => None
           end)
        path' (own data k)
  end.

(** The document store orders values of different types: null, then
    booleans, then numbers, then timestamps, then strings, arrays and
    maps.  [at_or_before v bound] is [v <= bound] in that order, for a
    timestamp [bound]. *)
Definition at_or_before (v : value) (bound : Z) : bool :=
  match v with
  | VNull | VBool _ | VNaN | VNum _ => true
  | VDate ms => ms <=? bound
  | _ => false
  end.

(** [queryRef.orderBy(path).endAt(new Date(bound)).get()]: ordering by a
    field selects the documents that have it; [endAt] keeps those at or
    before the bound.  The order of the result is not modelled: the
    sweep deletes every document of it. *)
Definition selected (path : list string) (bound : Z) (data : object)
    : bool :=
  match field data path with
  | Some v => at_or_before v bound
  | None => false
  end.

Definition orderBy_endAt (path : list string) (bound : Z) (st : store)
    : list (string * object) :=
  List.filter (fun item => selected path bound (snd item)) (map_to_list st).

(** One run of [cleanup] at time [now] ([Date.now()]), on a store whose
    deletes succeed. *)
Definition cleanup (config : Config) (now : Z) (st : store) : store :=
  let items :=
    orderBy_endAt [FB_RES config; "timestamp"]
      (now - CLEANUP_INTERVAL config) st in
  fold_left (fun s item => delete (fst item) s) items st.

(** [ref.update(data)] on the control collection: each field of [data]
    replaces the field of that name in the document. *)
Definition update (ref : string) (data : object) (st : store) : store :=
  alter (fun d => fold_left (fun d' p => obj_set (fst p) (snd p) d') data d)
    ref st.

(** The effect of a handler's writes on the control collection. *)
Definition write (st : store) (e : effect) : store :=
  match e with
  | ref_update ref data => update ref data st
  | _ => st
  end.

End SearchHandler.

(** ** Vocabulary of the statements *)

(** [k] passes the allow-list of the descriptor (every field does when
    there is none), and [k] is on its deny-list. *)
Definition included (record : Reference) (k : string) : bool :=
  match include record with
  | Some inc => mem k inc
  | None => true
  end.

Definition excluded (record : Reference) (k : string) : bool :=
  match exclude record with
  | Some exc => mem k exc
  | None => false
  end.

(** The field [k] of [d] survives the projection of [record]. *)
Definition kept (record : Reference) (d : object) (k : string) : bool :=
  included record k && negb (excluded record k && truthy (obj_get d k)).

(** A descriptor for the [emails] collection with the given lists. *)
Definition emails (inc exc : option (list string)) : Reference :=
  {| collection := "emails"; subcollection := None;
     index := Literal "emails"; type := Literal "emails";
     include := inc; exclude := exc;
     r_filter := None; transform := None; subBuilder := None |}.

(** The backend requests among the effects of a handler. *)
Fixpoint calls (t : list FirestoreCollectionHandler.effect)
    : list FirestoreCollectionHandler.request :=
  match t with
  | [] => []
  | FirestoreCollectionHandler.Call r :: t' => r :: calls t'
  | FirestoreCollectionHandler.console_error _ :: t' => calls t'
  end.

(** The name under which a handler logs a change of each kind. *)
Definition handler_tag (kind : FirebaseDocChangeType) : string :=
  match kind with
  | added => "FS_ADDED"
  | modified => "FS_MODIFIED"
  | removed => "FS_REMOVE"
  end.

(** The line logged for a failure [e] while handling document [id]. *)
Definition error_line (kind : FirebaseDocChangeType) (id : string)
    (e : Error) : string :=
  "Error in `" +:+ handler_tag kind +:+ "` handler [doc@" +:+ id
    +:+ "]: " +:+ message e.

(** The handler a change of each kind is routed to. *)
Definition handler_of (client : FirestoreCollectionHandler.request ->
                                FirestoreCollectionHandler.response)
    (record : Reference) (parentSnap : option DocumentSnapshot)
    (snap : QuerySnapshot) (change : DocumentChange)
    : M FirestoreCollectionHandler.effect unit :=
  let index := FirestoreCollectionHandler.resolve (index record) snap parentSnap in
  let type := FirestoreCollectionHandler.resolve (type record) snap parentSnap in
  match change_type change with
  | added =>
      FirestoreCollectionHandler.handleAdded client record
        (change_doc change) parentSnap index type
  | modified =>
      FirestoreCollectionHandler.handleModified client record
        (change_doc change) parentSnap index type
  | removed =>
      FirestoreCollectionHandler.handleRemoved client
        (change_doc change) index type
  end.

(** The configuration the examples run under. *)
Definition example_config : SearchHandler.Config :=
  {| SearchHandler.FB_REQ := "request";
     SearchHandler.FB_RES := "response";
     SearchHandler.CLEANUP_INTERVAL := 60000 |}.

(** The key under which the re-keying loop files a hit. *)
Definition hit_id (ToString : value -> string) (hit : value) : string :=
  match get hit "_id" with
  | Normal id => SearchHandler.toString ToString id
  | Throw _ => ""
  end.

Definition is_object (v : value) : bool :=
  match v with
  | VObj _ => true
  | _ => false
  end.

(** Two hits of a search on [emails]. *)
Definition hit_a : value :=
  VObj [("_id", VStr "a"); ("_source", VObj [("snippet", VStr "invoice 1")])].
Definition hit_b : value :=
  VObj [("_id", VStr "b"); ("_source", VObj [("snippet", VStr "invoice 2")])].

(** A control record with an answered query, stamped at time 1000. *)
Definition answered : object :=
  [("request", VObj [("index", VStr "emails"); ("type", VStr "emails");
                     ("q", VStr "invoice")]);
   ("response", VObj [("total", VNum 1); ("timestamp", VDate 1000)])].

(** A backend that rejects every call about the document [m1] and
    resolves every other call to [true]. *)
Definition failing_on_m1 (r : FirestoreCollectionHandler.request)
    : FirestoreCollectionHandler.response :=
  let id :=
    match r with
    | FirestoreCollectionHandler.client_exists id _ _
    | FirestoreCollectionHandler.client_update id _ _ _ _
    | FirestoreCollectionHandler.client_index id _ _ _
    | FirestoreCollectionHandler.client_delete id _ _ => id
    end in
  if String.eqb id "m1"
  then FirestoreCollectionHandler.Reject
         {| name := "Error"; message := "No Living connections" |}
  else FirestoreCollectionHandler.Resolve (VBool true).

(** The document, index and type a backend request names. *)
Definition req_id (r : FirestoreCollectionHandler.request) : string :=
  match r with
  | FirestoreCollectionHandler.client_exists id _ _
  | FirestoreCollectionHandler.client_update id _ _ _ _
  | FirestoreCollectionHandler.client_index id _ _ _
  | FirestoreCollectionHandler.client_delete id _ _ => id
  end.

Definition req_index (r : FirestoreCollectionHandler.request) : string :=
  match r with
  | FirestoreCollectionHandler.client_exists _ index _
  | FirestoreCollectionHandler.client_update _ index _ _ _
  | FirestoreCollectionHandler.client_index _ index _ _
  | FirestoreCollectionHandler.client_delete _ index _ => index
  end.

Definition req_type (r : FirestoreCollectionHandler.request) : string :=
  match r with
  | FirestoreCollectionHandler.client_exists _ _ type
  | FirestoreCollectionHandler.client_update _ _ type _ _
  | FirestoreCollectionHandler.client_index _ _ type _
  | FirestoreCollectionHandler.client_delete _ _ type => type
  end.

(** The body the handlers send for a projected document. *)
Definition body_of (record : Reference) (data : object)
    (parentSnap : option DocumentSnapshot) : value :=
  match transform record with
  | Some f => f data parentSnap
  | None => VObj data
  end.

(** The parents a batch adds, in order. *)
Fixpoint added_ids (snap : QuerySnapshot) : list string :=
  match snap with
  | [] => []
  | change :: snap' =>
      match change_type change with
      | added => doc_id (change_doc change) :: added_ids snap'
      | _ => added_ids snap'
      end
  end.

(** The documents of the Added changes of a batch, in order. *)
Fixpoint added_docs (snap : QuerySnapshot) : list DocumentSnapshot :=
  match snap with
  | [] => []
  | change :: snap' =>
      match change_type change with
      | added => change_doc change :: added_docs snap'
      | _ => added_docs snap'
      end
  end.

(** The searches and the record updates among the effects of the query
    bridge. *)
Fixpoint searches (t : list SearchHandler.effect) : list value :=
  match t with
  | [] => []
  | SearchHandler.client_search request _ :: t' => request :: searches t'
  | _ :: t' => searches t'
  end.

Fixpoint updates (t : list SearchHandler.effect) : list (string * object) :=
  match t with
  | [] => []
  | SearchHandler.ref_update ref data :: t' => (ref, data) :: updates t'
  | _ :: t' => updates t'
  end.

(** The listeners a binding opened and those it cancelled. *)
Fixpoint opened (t : list FirestoreCollectionHandler.feed_effect) : list nat :=
  match t with
  | [] => []
  | FirestoreCollectionHandler.onSnapshot _ _ h :: t' => h :: opened t'
  | FirestoreCollectionHandler.unsubscribe _ :: t' => opened t'
  end.

Fixpoint cancelled (t : list FirestoreCollectionHandler.feed_effect)
    : list nat :=
  match t with
  | [] => []
  | FirestoreCollectionHandler.unsubscribe h :: t' => h :: cancelled t'
  | FirestoreCollectionHandler.onSnapshot _ _ _ :: t' => cancelled t'
  end.

(** The index administration calls and the root listeners among the
    effects of [bind]. *)
Fixpoint admin_calls (t : list FirestoreCollectionHandler.Bind.bind_effect)
    : list FirestoreCollectionHandler.Bind.admin_request :=
  match t with
  | [] => []
  | FirestoreCollectionHandler.Bind.Admin r :: t' => r :: admin_calls t'
  | FirestoreCollectionHandler.Bind.ref_onSnapshot _ :: t' => admin_calls t'
  end.

Fixpoint root_listeners (t : list FirestoreCollectionHandler.Bind.bind_effect)
    : list FirestoreCollectionHandler.Bind.root_listener :=
  match t with
  | [] => []
  | FirestoreCollectionHandler.Bind.ref_onSnapshot l :: t' => l :: root_listeners t'
  | FirestoreCollectionHandler.Bind.Admin _ :: t' => root_listeners t'
  end.

(** The listeners the removals of a batch cancel when the batch adds no
    parent: for each Removed change, in order, the listener the table
    holds for its parent. *)
Fixpoint removed_handles (table : gmap string nat) (snap : QuerySnapshot)
    : list nat :=
  match snap with
  | [] => []
  | change :: snap' =>
      match change_type change, table !! doc_id (change_doc change) with
      | removed, Some h => h :: removed_handles table snap'
      | _, _ => removed_handles table snap'
      end
  end.

(** A descriptor that watches the [replies] under each post, and three
    changes of the post [p1]. *)
Definition replies : Reference :=
  {| collection := "posts"; subcollection := Some "replies";
     index := Literal "replies"; type := Literal "reply";
     include := None; exclude := None;
     r_filter := None; transform := None; subBuilder := None |}.

Definition p1_change (kind : FirebaseDocChangeType) : DocumentChange :=
  {| change_type := kind;
     change_doc := {| doc_id := "p1"; doc_data := [("title", VStr "t")] |} |}.

Definition empty_registry : FirestoreCollectionHandler.Registry :=
  {| FirestoreCollectionHandler.listeners := ∅;
     FirestoreCollectionHandler.next_handle := 0 |}.

(** An index administration that finds no index and then fails to
    create one. *)
Definition create_fails (r : FirestoreCollectionHandler.Bind.admin_request)
    : FirestoreCollectionHandler.response :=
  match r with
  | FirestoreCollectionHandler.Bind.indices_exists _ =>
      FirestoreCollectionHandler.Resolve (VBool false)
  | _ =>
      FirestoreCollectionHandler.Reject
        {| name := "Error"; message := "resource_already_exists_exception" |}
  end.

(** Whether a request object passes the test of [process]. *)
Definition well_formed (fields : object) : bool :=
  truthy (obj_get fields "index") && truthy (obj_get fields "type")
  && (truthy (obj_get fields "q") || truthy (obj_get fields "body")).

(** The response [respondError] writes for a message. *)
Definition error_response (message : string) : value :=
  VObj [("total", VNum 0); ("error", VStr message)].

(** A backend whose searches fail. *)
Definition search_fails (request : value) : SearchHandler.search_result :=
  SearchHandler.search_error
    {| name := "Error"; message := "No Living connections" |}.

(** A control record asking for [invoice] in [emails]. *)
Definition invoice_query : DocumentSnapshot :=
  {| doc_id := "q1";
     doc_data := [("request", VObj [("index", VStr "emails");
                                    ("type", VStr "emails");
                                    ("q", VStr "invoice")]);
                  ("response", VNull)] |}.

(** What an unawaited call of a method of the bridge leaves behind: one
    update of the record, under the response key alone, or a rejected
    promise, or nothing. *)
Definition one_answer (config : SearchHandler.Config) (ref : string)
    (t : list SearchHandler.effect) : Prop :=
  (exists v,
     t = [SearchHandler.ref_update ref [(SearchHandler.FB_RES config, v)]]) \/
  (exists e, t = [SearchHandler.unhandled_rejection e]) \/ t = [].

(** A backend whose searches find the hit [a]. *)
Definition finds_a (request : value) : SearchHandler.search_result :=
  SearchHandler.search_response
    (VObj [("hits", VObj [("total", VNum 1); ("hits", VArr [hit_a])])]).

(** A control record without a request. *)
Definition no_request : DocumentSnapshot :=
  {| doc_id := "q2"; doc_data := [("response", VNull)] |}.

(** A later version of the hit [a]. *)
Definition hit_a2 : value :=
  VObj [("_id", VStr "a"); ("_source", VObj [("snippet", VStr "invoice 3")])].

(** What the callbacks of the searches among the effects [t] do, once
    the backend has answered each search with [client request]. *)
Definition callbacks (config : SearchHandler.Config)
    (ToString : value -> string) (client : value -> SearchHandler.search_result)
    (new_Date : string -> Z) (t : list SearchHandler.effect)
    : list SearchHandler.effect :=
  concat
    (map (fun e =>
            match e with
            | SearchHandler.client_search request ref =>
                snd (SearchHandler.search_callback config ToString new_Date
                       ref (client request))
            | _ => []
            end) t).

(** The identifier of a hit that holds a string under [_id]. *)
Definition string_id (hit : value) : option string :=
  match hit with
  | VObj o =>
      match obj_get o "_id" with
      | VStr s => Some s
      | _ => None
      end
  | _ => None
  end.

(** A hit filed by the re-keying loop under the name of the prototype
    accessor. *)
Definition hit_proto : value :=
  VObj [("_id", VStr "__proto__");
        ("_source", VObj [("snippet", VStr "invoice 4")])].

(** An identifier under which an object made by [{}] inherits nothing
    whose [.call()] throws; [__proto__] is not one. *)
Definition plain_name (id : string) : bool :=
  match Object_prototype id with
  | throws _ => false
  | returns | nothing => true
  end.

(** The identifiers of the changes of a batch. *)
Definition change_ids (snap : QuerySnapshot) : list string :=
  map (fun change => doc_id (change_doc change)) snap.

(** The descriptor [replies] with a [subBuilder] that asks for the ten
    latest replies of a post. *)
Definition latest_replies : Reference :=
  {| collection := "posts"; subcollection := Some "replies";
     index := Literal "replies"; type := Literal "reply";
     include := None; exclude := None;
     r_filter := None; transform := None;
     subBuilder := Some (fun q => limit_query (orderBy_query q "sent") 10) |}.

(** * Properties *)

Import FirestoreCollectionHandler.

(** ** Objects *)

Arguments mem : simpl never.

Lemma mem_In (x : string) (l : list string) : mem x l = true <-> In x l.
Proof.
  unfold mem. rewrite existsb_exists. split.
  - intros [y [Hy He]]. apply String.eqb_eq in He. now subst.
  - intros H. exists x. split; [assumption | apply String.eqb_refl].
Qed.

Lemma mem_cons (x y : string) (l : list string) :
  mem x (y :: l) = String.eqb x y || mem x l.
Proof. reflexivity. Qed.

Lemma indexOf_from_mem (l : list string) (x : string) (i : Z) :
  0 <= i -> (indexOf_from i l x =? -1) = negb (mem x l).
Proof.
  revert i. induction l as [|y l IH]; intros i Hi; simpl.
  - reflexivity.
  - rewrite mem_cons, (String.eqb_sym x y).
    destruct (String.eqb y x); simpl.
    + apply Z.eqb_neq. lia.
    + apply IH. lia.
Qed.

Lemma indexOf_mem (l : list string) (x : string) :
  (indexOf l x =? -1) = negb (mem x l).
Proof. apply indexOf_from_mem. lia. Qed.

Lemma filter_twice {A} (f g : A -> bool) (l : list A) :
  List.filter f (List.filter g l) = List.filter (fun x => g x && f x) l.
Proof.
  induction l as [|a l IH]; simpl; [reflexivity|].
  destruct (g a); simpl; [destruct (f a)|]; now rewrite IH.
Qed.

Lemma filter_all {A} (f : A -> bool) (l : list A) :
  (forall x, In x l -> f x = true) -> List.filter f l = l.
Proof.
  induction l as [|a l IH]; simpl; intros H; [reflexivity|].
  rewrite (H a) by now left. f_equal. apply IH. intros x Hx. apply H. now right.
Qed.

Lemma keys_filter (f : string -> bool) (o : object) :
  keys (List.filter (fun p => f (fst p)) o) = List.filter f (keys o).
Proof.
  induction o as [|[k v] o IH]; simpl; [reflexivity|].
  destruct (f k); simpl; now rewrite IH.
Qed.

Lemma obj_get_filter (f : string -> bool) (o : object) (k : string) :
  f k = true -> obj_get (List.filter (fun p => f (fst p)) o) k = obj_get o k.
Proof.
  intros Hk. induction o as [|[k' v] o IH]; simpl; [reflexivity|].
  destruct (String.eqb_spec k' k) as [->|Hne].
  - rewrite Hk. simpl. now rewrite String.eqb_refl.
  - destruct (f k'); simpl; [|exact IH].
    destruct (String.eqb_spec k' k); [contradiction | exact IH].
Qed.

Lemma obj_get_delete_ne (o : object) (k k' : string) :
  k <> k' -> obj_get (obj_delete k o) k' = obj_get o k'.
Proof.
  intros Hne. unfold obj_delete.
  apply (obj_get_filter (fun x => negb (String.eqb x k))).
  apply negb_true_iff, String.eqb_neq. congruence.
Qed.

(** ** The record pipeline *)

Section RecordPipeline.

(** The [include] loop keeps the fields that [include] lists, in their
    order. *)
Lemma include_loop (inc ks : list string) (d : object) :
  fold_left
    (fun d key => if indexOf inc key =? -1 then obj_delete key d else d)
    ks d
  = List.filter (fun p => negb (mem (fst p) ks && negb (mem (fst p) inc))) d.
Proof.
  revert d. induction ks as [|k ks IH]; intros d; simpl.
  - symmetry. now apply filter_all.
  - rewrite IH, indexOf_mem.
    destruct (mem k inc) eqn:Hk; simpl.
    + apply filter_ext. intros [k' v]. simpl. rewrite mem_cons.
      destruct (String.eqb_spec k' k) as [->|]; simpl; [|reflexivity].
      rewrite Hk. simpl. now rewrite andb_false_r.
    + unfold obj_delete. rewrite filter_twice.
      apply filter_ext. intros [k' v]. simpl. rewrite mem_cons.
      destruct (String.eqb_spec k' k) as [->|]; simpl; [|reflexivity].
      now rewrite Hk.
Qed.

Lemma apply_include_filter (inc : list string) (d : object) :
  apply_include inc d = List.filter (fun p => mem (fst p) inc) d.
Proof.
  unfold apply_include. rewrite include_loop.
  apply filter_ext_in. intros [k v] Hin. simpl.
  assert (Hk : mem k (keys d) = true).
  { apply mem_In. unfold keys. apply in_map_iff. now exists (k, v). }
  rewrite Hk. simpl. apply negb_involutive.
Qed.

(** The [exclude] loop drops a listed field exactly when the value the
    document holds under it is truthy. *)
Lemma apply_exclude_filter (exc : list string) (d : object) :
  apply_exclude exc d
  = List.filter
      (fun p => negb (mem (fst p) exc && truthy (obj_get d (fst p)))) d.
Proof.
  unfold apply_exclude. revert d.
  induction exc as [|k exc IH]; intros d; simpl.
  - symmetry. now apply filter_all.
  - rewrite IH. destruct (truthy (obj_get d k)) eqn:Hk.
    + unfold obj_delete at 2. rewrite filter_twice.
      apply filter_ext. intros [k' v]. simpl. rewrite mem_cons.
      destruct (String.eqb_spec k' k) as [->|Hne]; simpl.
      * now rewrite Hk.
      * rewrite obj_get_delete_ne by congruence. reflexivity.
    + apply filter_ext. intros [k' v]. simpl. rewrite mem_cons.
      destruct (String.eqb_spec k' k) as [->|Hne]; simpl; [|reflexivity].
      rewrite Hk. now rewrite andb_false_r.
Qed.

(** What [filter] returns for a document that is not suppressed. *)
Lemma filter_Some (record : Reference) (d d' : object) :
  filter record d = Some d' ->
  d' = List.filter (fun p => kept record d (fst p)) d.
Proof.
  unfold filter, kept, included, excluded.
  destruct (negb _); [discriminate|]. intros [= <-].
  destruct (include record) as [inc|], (exclude record) as [exc|].
  - rewrite apply_exclude_filter, apply_include_filter, filter_twice.
    apply filter_ext_in. intros [k v] _. simpl.
    destruct (mem k inc) eqn:Hk; simpl; [|reflexivity].
    now rewrite (obj_get_filter (fun x => mem x inc)).
  - rewrite apply_include_filter. apply filter_ext. intros [k v]. simpl.
    now rewrite andb_true_r.
  - rewrite apply_exclude_filter. now apply filter_ext.
  - symmetry. now apply filter_all.
Qed.

Lemma filter_keys (record : Reference) (d d' : object) :
  filter record d = Some d' ->
  keys d' = List.filter (kept record d) (keys d).
Proof.
  intros H. rewrite (filter_Some _ _ _ H).
  apply (keys_filter (kept record d)).
Qed.

(** Where every value stored under an excluded field is truthy, the
    projection has the fields of [include] that the document has, minus
    those of [exclude]. *)
Lemma filter_keys_truthy (record : Reference) (d d' : object) :
  (forall k v, In (k, v) d -> excluded record k = true -> truthy v = true) ->
  List.NoDup (keys d) ->
  filter record d = Some d' ->
  forall k, In k (keys d') <->
            In k (keys d) /\ included record k = true
            /\ excluded record k = false.
Proof.
  intros Htruthy Hnd H k. rewrite (filter_keys _ _ _ H), filter_In.
  unfold kept. split.
  - intros [Hin Hk]. apply andb_true_iff in Hk as [Hi He].
    repeat split; try assumption.
    destruct (excluded record k) eqn:Hx; [|reflexivity].
    unfold keys in Hin. apply in_map_iff in Hin as [[k' v] [<- Hin]].
    simpl in *. assert (Hv : obj_get d k' = v).
    { clear -Hnd Hin. induction d as [|[k0 v0] d IH]; [destruct Hin|].
      simpl in *. inversion Hnd as [|? ? Hnot Hnd']; subst.
      destruct Hin as [[= -> ->]|Hin].
      - now rewrite String.eqb_refl.
      - destruct (String.eqb_spec k0 k') as [->|]; [|now apply IH].
        exfalso. apply Hnot, in_map_iff. now exists (k', v). }
    rewrite Hv, (Htruthy _ _ Hin Hx) in He. discriminate.
  - intros (Hin & Hi & He). split; [assumption|]. now rewrite Hi, He.
Qed.

Lemma obj_get_Permutation (d1 d2 : object) (k : string) :
  Permutation d1 d2 -> List.NoDup (keys d1) -> obj_get d1 k = obj_get d2 k.
Proof.
  induction 1 as [|[k0 v0] d1 d2 Hp IH|[k0 v0] [k1 v1] d|d1 d2 d3 H12 IH12 H23 IH23];
    intros Hnd; simpl in *.
  - reflexivity.
  - inversion Hnd; subst. now rewrite IH.
  - inversion Hnd as [|? ? Hnot _]; subst.
    destruct (String.eqb_spec k1 k) as [->|]; [|reflexivity].
    destruct (String.eqb_spec k0 k) as [->|]; [|reflexivity].
    exfalso. apply Hnot. now left.
  - rewrite IH12 by assumption. apply IH23.
    apply (Permutation_NoDup (Permutation_map fst H12) Hnd).
Qed.

Lemma filter_Permutation {A} (f : A -> bool) (l l' : list A) :
  Permutation l l' -> Permutation (List.filter f l) (List.filter f l').
Proof.
  induction 1 as [|a l l' Hp IH|a b l|l1 l2 l3 H12 IH12 H23 IH23]; simpl.
  - constructor.
  - destruct (f a); [now constructor | assumption].
  - destruct (f a), (f b); try reflexivity. constructor.
  - now transitivity (List.filter f l2).
Qed.

(** The projection does not depend on the order of the fields: two
    orderings of one document project to two orderings of one output. *)
Lemma filter_order_independent (record : Reference) (d1 d2 o1 o2 : object) :
  Permutation d1 d2 -> List.NoDup (keys d1) ->
  filter record d1 = Some o1 -> filter record d2 = Some o2 ->
  Permutation o1 o2.
Proof.
  intros Hp Hnd H1 H2.
  rewrite (filter_Some _ _ _ H1), (filter_Some _ _ _ H2).
  rewrite (filter_ext (fun p => kept record d2 (fst p))
             (fun p => kept record d1 (fst p))).
  - now apply filter_Permutation.
  - intros [k v]. unfold kept. simpl.
    now rewrite (obj_get_Permutation d1 d2 k Hp Hnd).
Qed.

(** C1: the document [{unread: false, snippet: "hi"}] under a descriptor
    that excludes [unread] passes the pipeline unchanged: the excluded
    field, holding a falsy value, is still in the projected output, which
    by the claim has the field [snippet] only. *)
Theorem filter_keeps_falsy_excluded_field :
  let record := emails None (Some ["unread"]) in
  let d := [("unread", VBool false); ("snippet", VStr "hi")] in
  excluded record "unread" = true /\
  filter record d = Some d /\
  keys d = ["unread"; "snippet"].
Proof. repeat split. Qed.

End RecordPipeline.

(** ** The listener table *)

Section SubscriptionRegistry.

Variable record : Reference.

Lemma bindChange_removed (st : Registry) (change : DocumentChange) :
  change_type change = removed ->
  bindChange record st change =
    match listeners st !! doc_id (change_doc change) with
    | Some h => (Normal st, [unsubscribe h])
    | None =>
        match Object_prototype (doc_id (change_doc change)) with
        | throws e => (Throw e, [])
        | returns | nothing => (Normal st, [])
        end
    end.
Proof.
  intros Hk. unfold bindChange. rewrite Hk.
  destruct (listeners st !! doc_id (change_doc change)); [reflexivity|].
  now destruct (Object_prototype _).
Qed.

(** The removal of a parent that has no entry, and whose identifier is
    the name of a member of [Object.prototype] that needs a receiver,
    throws: the changes after it in the batch are not handled. *)
Lemma removed_inherited_name_throws (st : Registry)
    (change : DocumentChange) (snap : QuerySnapshot) (e : Error) :
  change_type change = removed ->
  listeners st !! doc_id (change_doc change) = None ->
  Object_prototype (doc_id (change_doc change)) = throws e ->
  handleBindingSubcollection record st (change :: snap) = (Throw e, []).
Proof.
  intros Hk Hl Hp. cbn [handleBindingSubcollection].
  now rewrite (bindChange_removed st change Hk), Hl, Hp.
Qed.

End SubscriptionRegistry.

(** The removal of a parent [hasOwnProperty] that was never added. *)
Example removed_hasOwnProperty_throws :
  handleBindingSubcollection replies empty_registry
    [ {| change_type := removed;
         change_doc := {| doc_id := "hasOwnProperty"; doc_data := [] |} |};
      p1_change added ]
  = (Throw (TypeError "Cannot convert undefined or null to object"), []).
Proof. reflexivity. Qed.

(** C2, as stated, fails: after the parent [p1], registered with
    listener [0], is removed, the listener has been cancelled and the
    table still holds the entry of [p1]. *)
Lemma removed_parent_entry_stays :
  let st := {| listeners := {[ "p1" := 0%nat ]}; next_handle := 1 |} in
  handleBindingSubcollection replies st [p1_change removed]
    = (Normal st, [unsubscribe 0]) /\
  listeners st !! "p1" = Some 0%nat.
Proof. split; reflexivity. Qed.

(** C2, amended: a parent's removal cancels the listener registered under
    its identifier and leaves the table, the entry included, as it was;
    when nothing is registered under the identifier, the table has the
    prototype it was made with, and the identifier is not the name of a
    member of [Object.prototype], the removal does nothing: it completes
    normally, cancels and opens no listener and leaves the table as it
    was. *)
Theorem removed_parent_cancels_listener
    (record : Reference) (st : Registry) (change : DocumentChange) :
  change_type change = removed ->
  is_Some (listeners st !! doc_id (change_doc change)) \/
  (listeners st !! "__proto__" = None /\
   Object_prototype (doc_id (change_doc change)) = nothing) ->
  handleBindingSubcollection record st [change] =
    (Normal st,
     match listeners st !! doc_id (change_doc change) with
     | Some h => [unsubscribe h]
     | None => []
     end).
Proof.
  intros Hk Hid. cbn [handleBindingSubcollection].
  rewrite (bindChange_removed record st change Hk).
  destruct (listeners st !! doc_id (change_doc change)) as [h|] eqn:Hl.
  - reflexivity.
  - destruct Hid as [[h Hh]|[_ Hp]]; [discriminate|]. now rewrite Hp.
Qed.

Lemma removed_parent_cancels_listener_witness :
  let st := {| listeners := {[ "p1" := 0%nat ]}; next_handle := 1 |} in
  change_type (p1_change removed) = removed /\
  (is_Some (listeners st !! doc_id (change_doc (p1_change removed))) \/
   (listeners st !! "__proto__" = None /\
    Object_prototype (doc_id (change_doc (p1_change removed))) = nothing)) /\
  handleBindingSubcollection replies st [p1_change removed] =
    (Normal st,
     match listeners st !! doc_id (change_doc (p1_change removed)) with
     | Some h => [unsubscribe h]
     | None => []
     end).
Proof.
  assert (H : is_Some (({[ "p1" := 0%nat ]} : gmap string nat) !! "p1")).
  { exists 0%nat. reflexivity. }
  split; [reflexivity|]. split; [left; exact H|].
  apply (removed_parent_cancels_listener replies
           {| listeners := {[ "p1" := 0%nat ]}; next_handle := 1 |}
           (p1_change removed)); [reflexivity | left; exact H].
Defined.

(** The removal of a parent that was never added, computed on an empty
    table: nothing happens. *)
Example removed_unknown_parent :
  handleBindingSubcollection replies empty_registry [p1_change removed]
  = (Normal empty_registry, []).
Proof. reflexivity. Qed.

(** ** The change dispatcher *)

(** [Hin] places a call among the effects of a handler and [Hr] says the
    backend rejected it: find the call, and the line logged for it. *)
Ltac logged Hin Hr :=
  simpl in Hin;
  repeat (destruct Hin as [Hin|Hin];
          [ try discriminate Hin;
            try (injection Hin as <-; try congruence;
                 match goal with
                 | H : _ = Reject ?e1 |- _ =>
                     rewrite H in Hr; injection Hr as <-
                 end;
                 simpl; auto 6) | ]);
  try contradiction.

Section ChangeDispatcher.

Variable client : request -> response.
Variable record : Reference.

(** The body a handler sends: the projected document, transformed when
    the descriptor has a transform. *)
Lemma await_calls (r : request) :
  calls (snd (await client r)) = [r].
Proof. unfold await. simpl. now destruct (client r). Qed.

(** A handler's promise is always fulfilled: every backend call sits in a
    [try] whose [catch] only logs. *)
Lemma handleAdded_settles doc parentSnap index type :
  settle (handleAdded client record doc parentSnap index type) = Fulfilled.
Proof.
  unfold handleAdded. destruct (filter record (doc_data doc)); [|reflexivity].
  unfold await. simpl. destruct (client (client_exists _ _ _)) as [v|e]; simpl;
    [|reflexivity].
  destruct (truthy v); simpl.
  - now destruct (client (client_update _ _ _ _ _)).
  - now destruct (client (client_index _ _ _ _)).
Qed.

Lemma handleModified_settles doc parentSnap index type :
  settle (handleModified client record doc parentSnap index type) = Fulfilled.
Proof.
  unfold handleModified. destruct (filter record (doc_data doc)); [|reflexivity].
  unfold await. simpl. now destruct (client (client_update _ _ _ _ _)).
Qed.

Lemma handleRemoved_settles doc index type :
  settle (handleRemoved client doc index type) = Fulfilled.
Proof.
  unfold handleRemoved, await. simpl.
  now destruct (client (client_delete _ _ _)).
Qed.

(** A rejected backend call is logged with the handler's tag and the
    identifier of the document. *)
Lemma handleAdded_logs doc parentSnap index type r e :
  In (Call r) (snd (handleAdded client record doc parentSnap index type)) ->
  client r = Reject e ->
  In (console_error (error_line added (doc_id doc) e))
     (snd (handleAdded client record doc parentSnap index type)).
Proof.
  unfold handleAdded. destruct (filter record (doc_data doc)); [|simpl; tauto].
  unfold await. simpl.
  destruct (client (client_exists _ _ _)) as [v|e0] eqn:He; simpl.
  - destruct (truthy v); simpl.
    + destruct (client (client_update _ _ _ _ _)) as [v'|e1] eqn:Hu; simpl;
        intros Hin Hr; logged Hin Hr.
    + destruct (client (client_index _ _ _ _)) as [v'|e1] eqn:Hi; simpl;
        intros Hin Hr; logged Hin Hr.
  - intros Hin Hr; logged Hin Hr.
Qed.

Lemma handleModified_logs doc parentSnap index type r e :
  In (Call r) (snd (handleModified client record doc parentSnap index type)) ->
  client r = Reject e ->
  In (console_error (error_line modified (doc_id doc) e))
     (snd (handleModified client record doc parentSnap index type)).
Proof.
  unfold handleModified. destruct (filter record (doc_data doc)); [|simpl; tauto].
  unfold await. simpl.
  destruct (client (client_update _ _ _ _ _)) as [v|e0] eqn:Hu; simpl;
    intros Hin Hr; logged Hin Hr.
Qed.

Lemma handleRemoved_logs doc index type r e :
  In (Call r) (snd (handleRemoved client doc index type)) ->
  client r = Reject e ->
  In (console_error (error_line removed (doc_id doc) e))
     (snd (handleRemoved client doc index type)).
Proof.
  unfold handleRemoved, await. simpl.
  destruct (client (client_delete _ _ _)) as [v|e0] eqn:Hd; simpl;
    intros Hin Hr; logged Hin Hr.
Qed.

(** C3: when the pipeline lets the document of an Added event through,
    the handler asks the backend whether a record exists at (index, type,
    id); if it does, the only other call is an update whose body carries
    the pipeline output as [doc] with [doc_as_upsert: true], with
    [retryOnConflict] 2, and no [index] call is made; if it does not, the
    only other call is an [index] call with the pipeline output as body. *)
Theorem handleAdded_upserts_or_creates doc parentSnap index type data found :
  filter record (doc_data doc) = Some data ->
  client (client_exists (doc_id doc) index type) = Resolve found ->
  let body :=
    match transform record with
    | Some f => f data parentSnap
    | None => VObj data
    end in
  calls (snd (handleAdded client record doc parentSnap index type)) =
    if truthy found then
      [client_exists (doc_id doc) index type;
       client_update (doc_id doc) index type
         (VObj [("doc", body); ("doc_as_upsert", VBool true)]) 2]
    else
      [client_exists (doc_id doc) index type;
       client_index (doc_id doc) index type body].
Proof.
  intros Hf He. unfold handleAdded. rewrite Hf.
  unfold await. simpl. rewrite He. simpl.
  destruct (truthy found); simpl.
  - now destruct (client (client_update _ _ _ _ _)).
  - now destruct (client (client_index _ _ _ _)).
Qed.

Lemma dispatch_tasks parentSnap snap0 snap :
  forEach (dispatch client record parentSnap snap0) snap
  = (Normal tt,
     map (fun change =>
            {| task_change := change;
               task_settled :=
                 settle (handler_of client record parentSnap snap0 change);
               task_effects :=
                 snd (handler_of client record parentSnap snap0 change) |})
         snap).
Proof.
  induction snap as [|change snap IH]; cbn [forEach map]; [reflexivity|].
  rewrite IH. unfold dispatch, handler_of.
  now destruct (change_type change).
Qed.

(** C4: whatever the backend answers, a batch is processed to its end.
    The listener completes normally and has handed every change of the
    batch, in order, to the handler of its kind, whose effects are those
    of that handler run on that change alone, whatever failed before it;
    every handler's promise is fulfilled.  Each handler did run: for a
    Removed change the backend was asked to delete the document, and for
    an Added or Modified change that the pipeline lets through it was
    asked whether the record exists, respectively to update it.  And
    every backend call that was rejected is logged by the handler that
    made it, with the kind of the change and the identifier of its
    document. *)
Theorem handleSnapshot_contains_failures parentSnap snap :
  let index := resolve (index record) snap parentSnap in
  let type := resolve (type record) snap parentSnap in
  let handler :=
    fun change =>
      match change_type change with
      | added =>
          handleAdded client record (change_doc change) parentSnap index type
      | modified =>
          handleModified client record (change_doc change) parentSnap index
            type
      | removed => handleRemoved client (change_doc change) index type
      end in
  handleSnapshot client record parentSnap snap
  = (Normal tt,
     map (fun change =>
            {| task_change := change;
               task_settled := Fulfilled;
               task_effects := snd (handler change) |}) snap) /\
  forall change, In change snap ->
    match change_type change with
    | added =>
        forall data, filter record (doc_data (change_doc change)) = Some data ->
        exists rest,
          calls (snd (handler change))
          = client_exists (doc_id (change_doc change)) index type :: rest
    | modified =>
        forall data, filter record (doc_data (change_doc change)) = Some data ->
        calls (snd (handler change))
        = [client_update (doc_id (change_doc change)) index type
             (VObj [("doc", body_of record data parentSnap)]) 2]
    | removed =>
        calls (snd (handler change))
        = [client_delete (doc_id (change_doc change)) index type]
    end /\
    forall r e,
      In (Call r) (snd (handler change)) ->
      client r = Reject e ->
      In (console_error
            (error_line (change_type change) (doc_id (change_doc change)) e))
         (snd (handler change)).
Proof.
  intros index type handler. split.
  - unfold handleSnapshot. rewrite dispatch_tasks. f_equal.
    apply map_ext. intros c. unfold handler_of, handler, index, type.
    f_equal. destruct (change_type c);
      [ apply handleAdded_settles | apply handleModified_settles
      | apply handleRemoved_settles ].
  - intros c _. unfold handler. split.
    + destruct (change_type c).
      * intros data Hf. unfold handleAdded. rewrite Hf. unfold await. simpl.
        destruct (client (client_exists _ _ _)) as [v|e]; simpl; [|eauto].
        destruct (truthy v); simpl.
        -- destruct (client (client_update _ _ _ _ _)); simpl; eauto.
        -- destruct (client (client_index _ _ _ _)); simpl; eauto.
      * intros data Hf. unfold handleModified, body_of. rewrite Hf.
        unfold await. simpl. now destruct (client (client_update _ _ _ _ _)).
      * unfold handleRemoved, await. simpl.
        now destruct (client (client_delete _ _ _)).
    + intros r e. destruct (change_type c);
        [ apply handleAdded_logs | apply handleModified_logs
        | apply handleRemoved_logs ].
Qed.

End ChangeDispatcher.

(** A batch whose first change fails at the backend: the failure is
    logged and the removal that follows is carried out. *)
Example batch_survives_failure :
  handleSnapshot failing_on_m1 (emails (Some ["snippet"]) None) None
    [ {| change_type := added;
         change_doc := {| doc_id := "m1";
                          doc_data := [("snippet", VStr "hi")] |} |};
      {| change_type := removed;
         change_doc := {| doc_id := "m2"; doc_data := [] |} |} ]
  = (Normal tt,
     [ {| task_change :=
            {| change_type := added;
               change_doc := {| doc_id := "m1";
                                doc_data := [("snippet", VStr "hi")] |} |};
          task_settled := Fulfilled;
          task_effects :=
            [Call (client_exists "m1" "emails" "emails");
             console_error
               "Error in `FS_ADDED` handler [doc@m1]: No Living connections"] |};
       {| task_change :=
            {| change_type := removed;
               change_doc := {| doc_id := "m2"; doc_data := [] |} |};
          task_settled := Fulfilled;
          task_effects := [Call (client_delete "m2" "emails" "emails")] |} ]).
Proof. reflexivity. Qed.

(** With no record at (index, type, id), the document is created. *)
Example added_creates_when_absent :
  calls (snd (handleAdded (fun _ => Resolve (VBool false))
                (emails (Some ["snippet"; "id"]) None)
                {| doc_id := "m1";
                   doc_data := [("snippet", VStr "hi"); ("labels", VNull)] |}
                None "emails" "emails"))
  = [client_exists "m1" "emails" "emails";
     client_index "m1" "emails" "emails" (VObj [("snippet", VStr "hi")])].
Proof. reflexivity. Qed.

Lemma handleAdded_upserts_or_creates_witness :
  let client := fun _ : request => Resolve (VBool true) in
  let record := emails (Some ["snippet"; "id"]) None in
  let doc := {| doc_id := "m1";
                doc_data := [("snippet", VStr "hi"); ("labels", VNull)] |} in
  filter record (doc_data doc) = Some [("snippet", VStr "hi")] /\
  client (client_exists "m1" "emails" "emails") = Resolve (VBool true) /\
  calls (snd (handleAdded client record doc None "emails" "emails")) =
    [client_exists "m1" "emails" "emails";
     client_update "m1" "emails" "emails"
       (VObj [("doc", VObj [("snippet", VStr "hi")]);
              ("doc_as_upsert", VBool true)]) 2].
Proof.
  split; [reflexivity|]. split; [reflexivity|].
  apply (handleAdded_upserts_or_creates
           (fun _ => Resolve (VBool true))
           (emails (Some ["snippet"; "id"]) None)
           {| doc_id := "m1";
              doc_data := [("snippet", VStr "hi"); ("labels", VNull)] |}
           None "emails" "emails" [("snippet", VStr "hi")] (VBool true));
    reflexivity.
Defined.

(** ** The query bridge *)

Import SearchHandler.

Lemma own_obj_get (o : object) (k : string) :
  obj_get o k = match own o k with Some v => v | None => VUndefined end.
Proof.
  induction o as [|[k' v] o IH]; simpl; [reflexivity|].
  now destruct (String.eqb k' k).
Qed.

Lemma own_None_falsy (o : object) (k : string) :
  own o k = None -> truthy (obj_get o k) = false.
Proof. intros H. now rewrite own_obj_get, H. Qed.

Lemma own_obj_set (o : object) (k k' : string) (v : value) :
  own (obj_set k v o) k' = if String.eqb k k' then Some v else own o k'.
Proof.
  induction o as [|[k0 v0] o IH]; simpl.
  - reflexivity.
  - destruct (String.eqb_spec k0 k) as [->|Hne]; simpl.
    + now destruct (String.eqb k k').
    + rewrite IH. destruct (String.eqb_spec k k') as [->|].
      * destruct (String.eqb_spec k0 k'); [contradiction | reflexivity].
      * reflexivity.
Qed.

Lemma obj_get_obj_set (o : object) (k k' : string) (v : value) :
  obj_get (obj_set k v o) k' = if String.eqb k k' then v else obj_get o k'.
Proof.
  rewrite !own_obj_get, own_obj_set. now destruct (String.eqb k k').
Qed.

Lemma string_id_hit_id (ToString : value -> string) (hit : value)
    (s : string) :
  string_id hit = Some s -> hit_id ToString hit = s.
Proof.
  unfold string_id, hit_id. destruct hit; try discriminate. simpl.
  destruct (obj_get props "_id"); try discriminate. now intros [= ->].
Qed.

Section QueryBridge.

Variable config : Config.
Variable JSON_parse : value -> option value.
Variable ToString : value -> string.
Variable client : value -> search_result.
Variable new_Date : string -> Z.

Local Abbreviation process := (SearchHandler.process config JSON_parse).
Local Abbreviation respond := (SearchHandler.respond config ToString new_Date).
Local Abbreviation send := (SearchHandler.send config new_Date).
Local Abbreviation handleSnapshot :=
  (SearchHandler.handleSnapshot config JSON_parse).
Local Abbreviation hit_id := (hit_id ToString).

(** A request object is invalid when one of the fields it needs is
    missing. *)
Lemma invalid_missing (fields : object) :
  own fields "index" = None \/ own fields "type" = None \/
  (own fields "q" = None /\ own fields "body" = None) ->
  invalid (VObj fields) = (Normal true, []).
Proof.
  unfold invalid. simpl. intros [H|[H|[Hq Hb]]].
  - now rewrite (own_None_falsy _ _ H).
  - destruct (truthy (obj_get fields "index")); simpl; [|reflexivity].
    now rewrite (own_None_falsy _ _ H).
  - destruct (truthy (obj_get fields "index")); simpl; [|reflexivity].
    destruct (truthy (obj_get fields "type")); simpl; [|reflexivity].
    now rewrite (own_None_falsy _ _ Hq), (own_None_falsy _ _ Hb).
Qed.

(** C5: a request that lacks [index], lacks [type], or has neither [q]
    nor [body] is answered without searching: the one effect of
    processing it is the update of the same record with the response
    [{total: 0, error: <the message on required fields>}]. *)
Theorem process_rejects_incomplete_request (snap : DocumentSnapshot)
    (fields : object) :
  parse_request JSON_parse (obj_get (doc_data snap) (FB_REQ config))
    = VObj fields ->
  own fields "index" = None \/ own fields "type" = None \/
  (own fields "q" = None /\ own fields "body" = None) ->
  process snap =
    (Normal tt,
     [ref_update (doc_id snap)
        [(FB_RES config,
          VObj [("total", VNum 0);
                ("error",
                 VStr "Queries are required to have an `index`, `type` and either a `q`:string or `body`")])]]).
Proof.
  intros Hp Hm. unfold SearchHandler.process. rewrite Hp.
  now rewrite (invalid_missing fields Hm).
Qed.

Lemma find_last {A} (f : A -> bool) (l : list A) (x : A) :
  find f (l ++ [x]) =
    match find f l with
    | Some y => Some y
    | None => if f x then Some x else None
    end.
Proof.
  induction l as [|a l IH]; simpl; [reflexivity|].
  now destruct (f a).
Qed.

Lemma obj_get_obj_assign (o : object) (k k' : string) (v : value) :
  k' <> "__proto__" ->
  obj_get (obj_assign k v o) k' = if String.eqb k k' then v else obj_get o k'.
Proof.
  intros Hk. unfold obj_assign.
  destruct (String.eqb_spec k "__proto__") as [->|_].
  - destruct (String.eqb_spec "__proto__" k'); [congruence | reflexivity].
  - apply obj_get_obj_set.
Qed.

Lemma own_obj_assign_proto (o : object) (k : string) (v : value) :
  own (obj_assign k v o) "__proto__" = own o "__proto__".
Proof.
  unfold obj_assign. destruct (String.eqb_spec k "__proto__") as [->|Hne].
  - reflexivity.
  - rewrite own_obj_set. now destruct (String.eqb_spec k "__proto__").
Qed.

(** On hits that are objects the re-keying loop does not throw. *)
Lemma rekey_fold (hs : list value) (temp : object) :
  forallb is_object hs = true ->
  rekey ToString temp hs
  = Normal (fold_left (fun t hit => obj_assign (hit_id hit) hit t) hs temp).
Proof.
  revert temp. induction hs as [|hit hs IH]; intros temp Hobj; simpl in *.
  - reflexivity.
  - apply andb_true_iff in Hobj as [Hh Hobj].
    destruct hit; try discriminate. simpl. now rewrite IH.
Qed.

(** Under a key other than [__proto__], the re-keyed object holds the
    last hit filed there. *)
Lemma rekey_lookup (hs : list value) (temp : object) (k : string) :
  k <> "__proto__" ->
  obj_get (fold_left (fun t hit => obj_assign (hit_id hit) hit t) hs temp) k
  = match find (fun hit => String.eqb (hit_id hit) k) (rev hs) with
    | Some hit => hit
    | None => obj_get temp k
    end.
Proof.
  intros Hk. revert temp. induction hs as [|hit hs IH]; intros temp; simpl.
  - reflexivity.
  - rewrite IH, find_last.
    destruct (find _ (rev hs)); [reflexivity|].
    rewrite obj_get_obj_assign by exact Hk. now destruct (String.eqb _ k).
Qed.

Lemma rekey_member (hs : list value) (temp : object) (hit : value) :
  In hit hs ->
  hit_id hit <> "__proto__" ->
  exists hit',
    In hit' hs /\ hit_id hit' = hit_id hit /\
    obj_get (fold_left (fun t h => obj_assign (hit_id h) h t) hs temp)
      (hit_id hit) = hit'.
Proof.
  intros Hin Hk. rewrite rekey_lookup by exact Hk.
  destruct (find _ (rev hs)) as [hit'|] eqn:Hf.
  - apply find_some in Hf as [Hin' He]. exists hit'.
    apply String.eqb_eq in He. rewrite <- in_rev in Hin'. auto.
  - exfalso. rewrite in_rev in Hin.
    pose proof (find_none _ _ Hf hit Hin) as He.
    simpl in He. rewrite String.eqb_refl in He. discriminate.
Qed.

(** The re-keying loop never gives the object a property [__proto__]. *)
Lemma rekey_no_proto (hs : list value) (temp : object) :
  own temp "__proto__" = None ->
  own (fold_left (fun t hit => obj_assign (hit_id hit) hit t) hs temp)
    "__proto__" = None.
Proof.
  revert temp. induction hs as [|hit hs IH]; intros temp H; simpl.
  - exact H.
  - apply IH. now rewrite own_obj_assign_proto.
Qed.

(** What [respond] writes for a search result without [error] whose
    [hits.hits] is a list of hit objects: the result with a [timestamp]
    and with [hits.hits] replaced by an object [temp].  Under a string
    [s] other than [__proto__], [temp] holds the hit whose [_id] is [s],
    when no other hit of the list is filed under [s]; it has no property
    [__proto__]. *)
Lemma respond_rekeys_hits (ref : string) (fields hfields : object)
    (hs : list value) :
  truthy (obj_get fields "error") = false ->
  obj_get fields "hits" = VObj hfields ->
  obj_get hfields "hits" = VArr hs ->
  forallb is_object hs = true ->
  exists temp,
    respond ref (VObj fields)
      = (Normal tt,
         [ref_update ref
            [(FB_RES config,
              VObj (obj_set "timestamp" (VDate (new_Date ref))
                      (obj_set "hits"
                         (VObj (obj_set "hits" (VObj temp) hfields))
                         fields)))]]) /\
    (forall hit s,
       In hit hs -> string_id hit = Some s -> s <> "__proto__" ->
       (forall hit', In hit' hs -> hit_id hit' = s -> hit' = hit) ->
       obj_get temp s = hit) /\
    own temp "__proto__" = None.
Proof.
  intros He Hh Hhh Hobj.
  exists (fold_left (fun t hit => obj_assign (hit_id hit) hit t) hs []).
  split; [|split].
  - unfold SearchHandler.respond. simpl. rewrite He, Hh. simpl.
    rewrite Hhh. simpl. rewrite (rekey_fold hs [] Hobj). simpl.
    unfold SearchHandler.send. simpl. rewrite !String.eqb_refl. reflexivity.
  - intros hit s Hin Hs Hne Huniq.
    pose proof (string_id_hit_id ToString hit s Hs) as Hid.
    destruct (rekey_member hs [] hit Hin) as [hit' (Hin' & Hid' & Hget)];
      [now rewrite Hid|].
    rewrite Hid in Hget, Hid'. rewrite Hget. now apply Huniq.
  - now apply rekey_no_proto.
Qed.

(** C6: the search result with the two hits [a] and [__proto__] is
    written back with the hit [a] alone under [hits.hits]: the assignment
    [temp[hit._id] = hit] for the identifier [__proto__] sets the
    prototype of [temp] and files no entry, so the second hit is not in
    the response, which by the claim holds every hit under its
    identifier. *)
Theorem respond_loses_hit_named_proto :
  SearchHandler.respond example_config (fun _ => "") (fun _ => 1700000000000)
    "q1"
    (VObj [("hits", VObj [("total", VNum 2);
                          ("hits", VArr [hit_a; hit_proto])])])
  = (Normal tt,
     [ref_update "q1"
        [("response",
          VObj [("hits", VObj [("total", VNum 2);
                               ("hits", VObj [("a", hit_a)])]);
                ("timestamp", VDate 1700000000000)])]]).
Proof. reflexivity. Qed.

(** A string that does not parse is an invalid request: the error
    response is written. *)
Lemma process_unparseable_string (snap : DocumentSnapshot) (s : string) :
  obj_get (doc_data snap) (FB_REQ config) = VStr s ->
  JSON_parse (VStr s) = None ->
  process snap =
    (Normal tt,
     [ref_update (doc_id snap)
        [(FB_RES config,
          VObj [("total", VNum 0); ("error", VStr invalid_query)])]]).
Proof.
  intros Hr Hp. unfold SearchHandler.process, parse_request.
  rewrite Hr. simpl. now rewrite Hp.
Qed.

(** C7: a control record without a request field makes [process] throw:
    [JSON.parse(undefined)] fails, the request stays [undefined], and
    reading its [index] is a [TypeError]; no response is written. *)
Theorem process_throws_without_request (snap : DocumentSnapshot) :
  own (doc_data snap) (FB_REQ config) = None ->
  JSON_parse VUndefined = None ->
  process snap =
    (Throw (TypeError "Cannot read property 'index' of undefined"), []).
Proof.
  intros Hr Hp. unfold SearchHandler.process, parse_request.
  rewrite own_obj_get, Hr. simpl. now rewrite Hp.
Qed.

(** So does a request that is [null], or a string that parses to
    [null]. *)
Lemma process_throws_on_null (snap : DocumentSnapshot) (request : value) :
  obj_get (doc_data snap) (FB_REQ config) = request ->
  request = VNull \/
  (typeof_object request = false /\ JSON_parse request = Some VNull) ->
  process snap =
    (Throw (TypeError "Cannot read property 'index' of null"), []).
Proof.
  intros Hr H. unfold SearchHandler.process, parse_request. rewrite Hr.
  destruct H as [->|[Ht Hp]]; [reflexivity|]. now rewrite Ht, Hp.
Qed.

Lemma bind_ret {E A B} (a : A) (k : A -> M E B) : bind (ret a) k = k a.
Proof. unfold bind, ret. now destruct (k a). Qed.

(** The exception leaves [forEach]: the changes that follow in the batch
    are not processed. *)
Lemma handleSnapshot_aborts (change : DocumentChange)
    (snap : QuerySnapshot) (e : Error) :
  change_type change = added ->
  process (change_doc change) = (Throw e, []) ->
  handleSnapshot (change :: snap) = (Throw e, []).
Proof.
  intros Hk Hp. unfold SearchHandler.handleSnapshot. cbn [forEach].
  now rewrite Hk, Hp.
Qed.

(** C10: a change of kind Modified or Removed has no part in what the
    listener does with a batch, whatever its record holds: the batch is
    handled as if the change were not in it.  In particular a batch of
    such changes alone runs no search and writes nothing. *)
Theorem handleSnapshot_skips_not_added (pre post : QuerySnapshot)
    (change : DocumentChange) :
  change_type change <> added ->
  handleSnapshot (pre ++ change :: post) = handleSnapshot (pre ++ post) /\
  handleSnapshot [change] = (Normal tt, []).
Proof.
  intros Hk. unfold SearchHandler.handleSnapshot. split.
  - induction pre as [|c pre IH]; cbn [forEach app].
    + destruct (change_type change); [contradiction| |];
        now rewrite bind_ret.
    + now rewrite IH.
  - cbn [forEach]. now destruct (change_type change).
Qed.

End QueryBridge.

Lemma process_throws_without_request_witness :
  let snap := {| doc_id := "q1"; doc_data := [("response", VNull)] |} in
  own (doc_data snap) (FB_REQ example_config) = None /\
  (fun _ : value => @None value) VUndefined = None /\
  SearchHandler.process example_config (fun _ => None) snap =
    (Throw (TypeError "Cannot read property 'index' of undefined"), []).
Proof.
  split; [reflexivity|]. split; [reflexivity|].
  apply (process_throws_without_request example_config (fun _ => None)
           {| doc_id := "q1"; doc_data := [("response", VNull)] |});
    reflexivity.
Defined.

Lemma handleSnapshot_skips_not_added_witness :
  let change :=
    {| change_type := modified;
       change_doc :=
         {| doc_id := "q1";
            doc_data := [("request", VObj [("index", VStr "emails");
                                           ("type", VStr "emails");
                                           ("q", VStr "invoice")])] |} |} in
  let handle :=
    SearchHandler.handleSnapshot example_config (fun _ => None) in
  change_type change <> added /\
  handle ([] ++ change :: []) = handle ([] ++ []) /\
  handle [change] = (Normal tt, []).
Proof.
  split; [discriminate|].
  apply (handleSnapshot_skips_not_added example_config (fun _ => None)
           [] []).
  discriminate.
Defined.

Lemma process_rejects_incomplete_request_witness :
  let snap :=
    {| doc_id := "q1";
       doc_data := [("request", VObj [("type", VStr "emails")])] |} in
  let fields := [("type", VStr "emails")] in
  parse_request (fun _ => None) (obj_get (doc_data snap) (FB_REQ example_config))
    = VObj fields /\
  (own fields "index" = None \/ own fields "type" = None \/
   (own fields "q" = None /\ own fields "body" = None)) /\
  SearchHandler.process example_config (fun _ => None) snap =
    (Normal tt,
     [ref_update "q1"
        [("response",
          VObj [("total", VNum 0);
                ("error",
                 VStr "Queries are required to have an `index`, `type` and either a `q`:string or `body`")])]]).
Proof.
  split; [reflexivity|]. split; [left; reflexivity|].
  apply (process_rejects_incomplete_request example_config (fun _ => None)
           {| doc_id := "q1";
              doc_data := [("request", VObj [("type", VStr "emails")])] |}
           [("type", VStr "emails")]);
    [reflexivity | left; reflexivity].
Defined.

(** A valid query, end to end: the listener issues the search and
    returns; the callback, called with the backend's answer, writes the
    hits back keyed by identifier. *)
Example process_valid_query :
  SearchHandler.process example_config (fun _ => None) invoice_query
  = (Normal tt,
     [client_search (VObj [("index", VStr "emails"); ("type", VStr "emails");
                           ("q", VStr "invoice")]) "q1"]) /\
  SearchHandler.search_callback example_config (fun _ => "")
    (fun _ => 1700000000000) "q1"
    (search_response
       (VObj [("hits", VObj [("total", VNum 1); ("hits", VArr [hit_a])])]))
  = (Normal tt,
     [ref_update "q1"
        [("response",
          VObj [("hits", VObj [("total", VNum 1);
                               ("hits", VObj [("a", hit_a)])]);
                ("timestamp", VDate 1700000000000)])]]).
Proof. split; reflexivity. Qed.

(** The response written for these two hits, computed. *)
Example respond_two_hits :
  SearchHandler.respond example_config (fun _ => "") (fun _ => 1700000000000)
    "q1"
    (VObj [("took", VNum 3);
           ("hits", VObj [("total", VNum 2); ("hits", VArr [hit_a; hit_b])])])
  = (Normal tt,
     [ref_update "q1"
        [("response",
          VObj [("took", VNum 3);
                ("hits", VObj [("total", VNum 2);
                               ("hits", VObj [("a", hit_a); ("b", hit_b)])]);
                ("timestamp", VDate 1700000000000)])]]).
Proof. reflexivity. Qed.

(** ** The cleanup sweep *)

Section Cleanup.

Variable config : Config.

Lemma delete_all_gone (items : list (string * object)) (st : store)
    (id : string) :
  st !! id = None ->
  fold_left (fun s item => delete (fst item) s) items st !! id = None.
Proof.
  revert st. induction items as [|[k d] items IH]; intros st H; simpl.
  - exact H.
  - apply IH. destruct (decide (k = id)) as [->|Hne].
    + apply lookup_delete_eq.
    + now rewrite lookup_delete_ne.
Qed.

Lemma delete_all_listed (items : list (string * object)) (st : store)
    (id : string) :
  In id (map fst items) ->
  fold_left (fun s item => delete (fst item) s) items st !! id = None.
Proof.
  revert st. induction items as [|[k d] items IH]; intros st; simpl.
  - intros [].
  - destruct (decide (k = id)) as [->|Hne].
    + intros _. apply delete_all_gone, lookup_delete_eq.
    + intros [Hk|Hin]; [contradiction | now apply IH].
Qed.

Lemma delete_all_other (items : list (string * object)) (st : store)
    (id : string) :
  ~ In id (map fst items) ->
  fold_left (fun s item => delete (fst item) s) items st !! id = st !! id.
Proof.
  revert st. induction items as [|[k d] items IH]; intros st; simpl.
  - reflexivity.
  - intros Hn. rewrite IH by tauto. apply lookup_delete_ne. tauto.
Qed.

Lemma orderBy_endAt_In path bound (st : store) id d :
  In (id, d) (orderBy_endAt path bound st) <->
  st !! id = Some d /\ selected path bound d = true.
Proof.
  unfold orderBy_endAt. rewrite filter_In. simpl.
  now rewrite <- list_elem_of_In, elem_of_map_to_list.
Qed.

(** What a sweep leaves of each record. *)
Lemma cleanup_lookup (now : Z) (st : store) (id : string) (d : object) :
  st !! id = Some d ->
  cleanup config now st !! id =
    if selected [FB_RES config; "timestamp"] (now - CLEANUP_INTERVAL config) d
    then None else Some d.
Proof.
  intros Hd. unfold cleanup.
  destruct (selected _ _ d) eqn:Hs.
  - apply delete_all_listed, in_map_iff. exists (id, d).
    split; [reflexivity|]. now apply orderBy_endAt_In.
  - rewrite delete_all_other; [exact Hd|].
    intros Hin. apply in_map_iff in Hin as [[id' d'] [Hid Hin]].
    simpl in Hid. subst id'. apply orderBy_endAt_In in Hin as [Hd' Hs'].
    congruence.
Qed.

(** C8: a sweep at time [now] deletes a record whose response timestamp
    is older than [now] minus the retention interval, and keeps, as it
    is, a record whose response timestamp is newer than that. *)
Theorem cleanup_deletes_older_keeps_newer (now : Z) (st : store)
    (id : string) (d : object) (ts : Z) :
  st !! id = Some d ->
  field d [FB_RES config; "timestamp"] = Some (VDate ts) ->
  (ts < now - CLEANUP_INTERVAL config -> cleanup config now st !! id = None) /\
  (now - CLEANUP_INTERVAL config < ts -> cleanup config now st !! id = Some d).
Proof.
  intros Hd Hts. rewrite (cleanup_lookup now st id d Hd).
  unfold selected. rewrite Hts. simpl. split; intros H.
  - now rewrite (proj2 (Z.leb_le _ _)) by lia.
  - now rewrite (proj2 (Z.leb_gt _ _)) by lia.
Qed.

(** A record is out of a sweep's reach while its response has no
    timestamp. *)
Lemma cleanup_keeps_unstamped (now : Z) (st : store) (id : string)
    (d : object) :
  st !! id = Some d ->
  field d [FB_RES config; "timestamp"] = None ->
  cleanup config now st !! id = Some d.
Proof.
  intros Hd Hts. rewrite (cleanup_lookup now st id d Hd).
  unfold selected. now rewrite Hts.
Qed.

Lemma sweeps_keep_unstamped (sweeps : list Z) (st : store) (id : string)
    (d : object) :
  st !! id = Some d ->
  field d [FB_RES config; "timestamp"] = None ->
  fold_left (fun s now => cleanup config now s) sweeps st !! id = Some d.
Proof.
  revert st. induction sweeps as [|now sweeps IH]; intros st Hd Hts; simpl.
  - exact Hd.
  - apply IH; [|exact Hts]. now apply cleanup_keeps_unstamped.
Qed.

(** C9: the response [respondError] writes is [{total: 0, error:
    message}], without a timestamp; once it is written to a record, the
    sweep's query, which orders by the response timestamp, never selects
    the record: after any sequence of sweeps, at whatever times, the
    record is still there. *)
Theorem error_response_is_never_swept (ref message : string) (st : store)
    (d : object) (sweeps : list Z) :
  st !! ref = Some d ->
  let response := VObj [("total", VNum 0); ("error", VStr message)] in
  let written := obj_set (FB_RES config) response d in
  snd (respondError config ref message)
    = [ref_update ref [(FB_RES config, response)]] /\
  fold_left write (snd (respondError config ref message)) st !! ref
    = Some written /\
  field written [FB_RES config; "timestamp"] = None /\
  fold_left (fun s now => cleanup config now s) sweeps
    (fold_left write (snd (respondError config ref message)) st) !! ref
    = Some written.
Proof.
  intros Hd response written.
  assert (Hw : fold_left write (snd (respondError config ref message)) st
               !! ref = Some written).
  { simpl. unfold update. rewrite lookup_alter_eq, Hd. reflexivity. }
  assert (Hf : field written [FB_RES config; "timestamp"] = None).
  { unfold field, written. simpl. rewrite own_obj_set, String.eqb_refl.
    reflexivity. }
  split; [reflexivity|]. split; [exact Hw|]. split; [exact Hf|].
  now apply sweeps_keep_unstamped.
Qed.

End Cleanup.

Lemma cleanup_deletes_older_keeps_newer_witness :
  let st : store := {[ "q1" := answered ]} in
  st !! "q1" = Some answered /\
  field answered [FB_RES example_config; "timestamp"] = Some (VDate 1000) /\
  (1000 < 100000 - CLEANUP_INTERVAL example_config ->
   cleanup example_config 100000 st !! "q1" = None) /\
  (100000 - CLEANUP_INTERVAL example_config < 1000 ->
   cleanup example_config 100000 st !! "q1" = Some answered).
Proof.
  split; [reflexivity|]. split; [reflexivity|].
  apply (cleanup_deletes_older_keeps_newer example_config 100000
           {[ "q1" := answered ]} "q1" answered 1000); reflexivity.
Defined.

Lemma error_response_is_never_swept_witness :
  let st : store := {[ "q1" := [("request", VObj [("type", VStr "emails")])] ]} in
  let d := [("request", VObj [("type", VStr "emails")])] in
  let response := VObj [("total", VNum 0); ("error", VStr "bad")] in
  let written := obj_set (FB_RES example_config) response d in
  st !! "q1" = Some d /\
  snd (respondError example_config "q1" "bad")
    = [ref_update "q1" [(FB_RES example_config, response)]] /\
  fold_left write (snd (respondError example_config "q1" "bad")) st !! "q1"
    = Some written /\
  field written [FB_RES example_config; "timestamp"] = None /\
  fold_left (fun s now => cleanup example_config now s) [100000; 10000000]
    (fold_left write (snd (respondError example_config "q1" "bad")) st) !! "q1"
    = Some written.
Proof.
  split; [reflexivity|].
  apply (error_response_is_never_swept example_config "q1" "bad"
           {[ "q1" := [("request", VObj [("type", VStr "emails")])] ]}
           [("request", VObj [("type", VStr "emails")])]
           [100000; 10000000]).
  reflexivity.
Defined.

(** * Further properties of the handlers *)

(** ** The record pipeline, continued *)

Lemma obj_get_In (d : object) (k : string) (v : value) :
  List.NoDup (keys d) -> In (k, v) d -> obj_get d k = v.
Proof.
  induction d as [|[k0 v0] d IH]; simpl; intros Hnd Hin; [destruct Hin|].
  inversion Hnd as [|? ? Hnot Hnd']; subst.
  destruct Hin as [[= -> ->]|Hin].
  - now rewrite String.eqb_refl.
  - destruct (String.eqb_spec k0 k) as [->|]; [|now apply IH].
    exfalso. apply Hnot, in_map_iff. now exists (k, v).
Qed.

Lemma filter_none {A} (f : A -> bool) (l : list A) :
  (forall x, In x l -> f x = false) -> List.filter f l = [].
Proof.
  induction l as [|a l IH]; simpl; intros H; [reflexivity|].
  rewrite (H a) by now left. apply IH. intros x Hx. apply H. now right.
Qed.

(** What [filter] returns when the descriptor's predicate lets the
    document through. *)
Lemma filter_passes (record : Reference) (d : object) :
  (forall f, r_filter record = Some f -> f d = true) ->
  filter record d = Some (List.filter (fun p => kept record d (fst p)) d).
Proof.
  intros Hf.
  assert (H : exists d', filter record d = Some d').
  { unfold filter. destruct (r_filter record) as [f|].
    - rewrite (Hf f eq_refl). simpl. eauto.
    - simpl. eauto. }
  destruct H as [d' H]. rewrite H. f_equal. now apply filter_Some.
Qed.

Lemma kept_projection (record : Reference) (d : object) (k : string) :
  kept record d k = true ->
  kept record (List.filter (fun p => kept record d (fst p)) d) k = true.
Proof.
  intros Hk. unfold kept at 1.
  rewrite (obj_get_filter (kept record d) d k Hk). exact Hk.
Qed.

(** X1: a document the descriptor's predicate rejects is left alone by
    the Added and the Modified handler: no backend call, no log line,
    and the handler's promise is fulfilled. *)
Theorem suppressed_document_is_not_written
    (client : request -> response) (record : Reference)
    (doc : DocumentSnapshot) (parentSnap : option DocumentSnapshot)
    (index type : string) (f : object -> bool) :
  r_filter record = Some f ->
  f (doc_data doc) = false ->
  handleAdded client record doc parentSnap index type = (Normal tt, []) /\
  handleModified client record doc parentSnap index type = (Normal tt, []).
Proof.
  intros Hr Hf.
  assert (H : filter record (doc_data doc) = None).
  { unfold filter. now rewrite Hr, Hf. }
  unfold handleAdded, handleModified. now rewrite H.
Qed.

Lemma suppressed_document_is_not_written_witness :
  let record :=
    {| collection := "emails"; subcollection := None;
       index := Literal "emails"; type := Literal "emails";
       include := None; exclude := None;
       r_filter := Some (fun d => truthy (obj_get d "public"));
       transform := None; subBuilder := None |} in
  let doc := {| doc_id := "m1"; doc_data := [("snippet", VStr "hi")] |} in
  r_filter record = Some (fun d => truthy (obj_get d "public")) /\
  truthy (obj_get (doc_data doc) "public") = false /\
  handleAdded failing_on_m1 record doc None "emails" "emails"
    = (Normal tt, []) /\
  handleModified failing_on_m1 record doc None "emails" "emails"
    = (Normal tt, []).
Proof.
  split; [reflexivity|]. split; [reflexivity|].
  apply (suppressed_document_is_not_written failing_on_m1
           {| collection := "emails"; subcollection := None;
              index := Literal "emails"; type := Literal "emails";
              include := None; exclude := None;
              r_filter := Some (fun d => truthy (obj_get d "public"));
              transform := None; subBuilder := None |}
           {| doc_id := "m1"; doc_data := [("snippet", VStr "hi")] |}
           None "emails" "emails" (fun d => truthy (obj_get d "public")));
    reflexivity.
Defined.

(** X2: the projection only removes fields: every field of the output is
    a field of the document with the value it had there, and is on the
    include list when the descriptor has one. *)
Theorem filter_only_removes_fields (record : Reference) (d d' : object)
    (k : string) (v : value) :
  filter record d = Some d' ->
  In (k, v) d' ->
  In (k, v) d /\ included record k = true.
Proof.
  intros H Hin. rewrite (filter_Some _ _ _ H) in Hin.
  apply filter_In in Hin as [Hin Hk]. split; [exact Hin|].
  unfold kept in Hk. simpl in Hk. now apply andb_true_iff in Hk as [Hi _].
Qed.

Lemma filter_only_removes_fields_witness :
  let record := emails (Some ["snippet"; "id"]) None in
  let d := [("snippet", VStr "hi"); ("labels", VNull)] in
  filter record d = Some [("snippet", VStr "hi")] /\
  In ("snippet", VStr "hi") [("snippet", VStr "hi")] /\
  In ("snippet", VStr "hi") d /\ included record "snippet" = true.
Proof.
  split; [reflexivity|]. split; [now left|].
  apply (filter_only_removes_fields (emails (Some ["snippet"; "id"]) None)
           [("snippet", VStr "hi"); ("labels", VNull)]
           [("snippet", VStr "hi")]); [reflexivity | now left].
Defined.

(** X3: projecting a projected document changes nothing, provided the
    descriptor's predicate lets the projected document through. *)
Theorem filter_idempotent (record : Reference) (d d' : object) :
  filter record d = Some d' ->
  (forall f, r_filter record = Some f -> f d' = true) ->
  filter record d' = Some d'.
Proof.
  intros H Hf. rewrite (filter_passes record d' Hf). f_equal.
  apply filter_all. intros [k v] Hin. simpl.
  rewrite (filter_Some _ _ _ H) in Hin |- *.
  apply filter_In in Hin as [_ Hk]. now apply kept_projection.
Qed.

Lemma filter_idempotent_witness :
  let record := emails (Some ["snippet"; "id"]) (Some ["id"]) in
  let d := [("id", VNum 7); ("snippet", VStr "hi"); ("labels", VNull)] in
  filter record d = Some [("snippet", VStr "hi")] /\
  (forall f, r_filter record = Some f -> f [("snippet", VStr "hi")] = true) /\
  filter record [("snippet", VStr "hi")] = Some [("snippet", VStr "hi")].
Proof.
  split; [reflexivity|]. split; [discriminate|].
  apply (filter_idempotent (emails (Some ["snippet"; "id"]) (Some ["id"]))
           [("id", VNum 7); ("snippet", VStr "hi"); ("labels", VNull)]);
    [reflexivity | discriminate].
Defined.

(** X4: a field on the exclude list reaches the output only with a falsy
    value: a truthy value under an excluded field is always dropped. *)
Theorem filter_drops_truthy_excluded (record : Reference) (d d' : object)
    (k : string) (v : value) :
  List.NoDup (keys d) ->
  filter record d = Some d' ->
  In (k, v) d' ->
  excluded record k = true ->
  truthy v = false.
Proof.
  intros Hnd H Hin Hx. rewrite (filter_Some _ _ _ H) in Hin.
  apply filter_In in Hin as [Hin Hk]. unfold kept in Hk. simpl in Hk.
  apply andb_true_iff in Hk as [_ Hk].
  rewrite Hx, (obj_get_In d k v Hnd Hin) in Hk. simpl in Hk.
  now apply negb_true_iff in Hk.
Qed.

Lemma filter_drops_truthy_excluded_witness :
  let record := emails None (Some ["unread"; "secret"]) in
  let d := [("unread", VBool false); ("secret", VStr "x")] in
  List.NoDup (keys d) /\
  filter record d = Some [("unread", VBool false)] /\
  In ("unread", VBool false) [("unread", VBool false)] /\
  excluded record "unread" = true /\
  truthy (VBool false) = false.
Proof.
  assert (Hnd : List.NoDup (keys [("unread", VBool false); ("secret", VStr "x")])).
  { repeat constructor; simpl; intuition discriminate. }
  split; [exact Hnd|]. split; [reflexivity|]. split; [now left|].
  split; [reflexivity|].
  apply (filter_drops_truthy_excluded
           (emails None (Some ["unread"; "secret"]))
           [("unread", VBool false); ("secret", VStr "x")]
           [("unread", VBool false)] "unread" (VBool false));
    [exact Hnd | reflexivity | now left | reflexivity].
Defined.

(** X5: a document that has none of the fields of the include list is
    not suppressed: its projection is the empty object, and the Added
    handler goes on to the backend with it. *)
Theorem unlisted_document_is_written_empty
    (client : request -> response) (record : Reference)
    (doc : DocumentSnapshot) (parentSnap : option DocumentSnapshot)
    (index type : string) (inc : list string) :
  include record = Some inc ->
  (forall k, In k (keys (doc_data doc)) -> mem k inc = false) ->
  (forall f, r_filter record = Some f -> f (doc_data doc) = true) ->
  filter record (doc_data doc) = Some [] /\
  exists rest,
    snd (handleAdded client record doc parentSnap index type)
    = Call (client_exists (doc_id doc) index type) :: rest.
Proof.
  intros Hi Hk Hf.
  assert (H : filter record (doc_data doc) = Some []).
  { rewrite (filter_passes _ _ Hf). f_equal. apply filter_none.
    intros [k v] Hin. unfold kept, included. rewrite Hi. simpl.
    rewrite (Hk k); [reflexivity|]. apply in_map_iff. now exists (k, v). }
  split; [exact H|]. unfold handleAdded. rewrite H. unfold await. simpl.
  destruct (client (client_exists _ _ _)) as [v|e]; simpl; [|eauto].
  destruct (truthy v); simpl.
  - destruct (client (client_update _ _ _ _ _)); simpl; eauto.
  - destruct (client (client_index _ _ _ _)); simpl; eauto.
Qed.

Lemma unlisted_document_is_written_empty_witness :
  let record := emails (Some ["snippet"; "id"]) None in
  let doc := {| doc_id := "m1"; doc_data := [("labels", VNull)] |} in
  include record = Some ["snippet"; "id"] /\
  (forall k, In k (keys (doc_data doc)) -> mem k ["snippet"; "id"] = false) /\
  (forall f, r_filter record = Some f -> f (doc_data doc) = true) /\
  filter record (doc_data doc) = Some [] /\
  exists rest,
    snd (handleAdded failing_on_m1 record doc None "emails" "emails")
    = Call (client_exists (doc_id doc) "emails" "emails") :: rest.
Proof.
  assert (Hk : forall k, In k (keys [("labels", VNull)]) ->
                         mem k ["snippet"; "id"] = false).
  { intros k [<-|[]]. reflexivity. }
  split; [reflexivity|]. split; [exact Hk|]. split; [discriminate|].
  apply (unlisted_document_is_written_empty failing_on_m1
           (emails (Some ["snippet"; "id"]) None)
           {| doc_id := "m1"; doc_data := [("labels", VNull)] |}
           None "emails" "emails" ["snippet"; "id"]);
    [reflexivity | exact Hk | discriminate].
Defined.

(** ** The change dispatcher, continued *)

(** [Hin] places a log line among the effects of a handler: find the
    rejected call it was written for. *)
Ltac blamed Hin :=
  simpl in Hin;
  repeat (destruct Hin as [Hin|Hin];
          [ try discriminate Hin;
            try (injection Hin as <-;
                 match goal with
                 | H : ?client ?r = Reject ?e |- _ =>
                     exists r, e; simpl; repeat split; auto 6
                 end) | ]);
  try contradiction.

Section ChangeDispatcherMore.

Variable client : request -> response.
Variable record : Reference.

(** X6: for a document the pipeline lets through, the Modified handler
    makes one backend call, whatever the backend answers: a partial
    update of (index, type, id) with the pipeline output as [doc], without
    the upsert flag, with [retryOnConflict] 2.  It never asks whether the
    record exists and never creates it. *)
Theorem handleModified_updates_only (doc : DocumentSnapshot)
    (parentSnap : option DocumentSnapshot) (index type : string)
    (data : object) :
  filter record (doc_data doc) = Some data ->
  calls (snd (handleModified client record doc parentSnap index type))
  = [client_update (doc_id doc) index type
       (VObj [("doc", body_of record data parentSnap)]) 2].
Proof.
  intros Hf. unfold handleModified, body_of. rewrite Hf.
  unfold await. simpl. now destruct (client (client_update _ _ _ _ _)).
Qed.

Lemma handleAdded_targets doc parentSnap index type :
  Forall (fun r => req_id r = doc_id doc /\ req_index r = index
                   /\ req_type r = type)
    (calls (snd (handleAdded client record doc parentSnap index type))).
Proof.
  unfold handleAdded. destruct (filter record (doc_data doc)); [|constructor].
  unfold await. simpl.
  destruct (client (client_exists _ _ _)) as [v|e]; simpl;
    [|repeat constructor].
  destruct (truthy v); simpl.
  - destruct (client (client_update _ _ _ _ _)); simpl; repeat constructor.
  - destruct (client (client_index _ _ _ _)); simpl; repeat constructor.
Qed.

Lemma handleModified_targets doc parentSnap index type :
  Forall (fun r => req_id r = doc_id doc /\ req_index r = index
                   /\ req_type r = type)
    (calls (snd (handleModified client record doc parentSnap index type))).
Proof.
  unfold handleModified. destruct (filter record (doc_data doc)); [|constructor].
  unfold await. simpl.
  destruct (client (client_update _ _ _ _ _)); simpl; repeat constructor.
Qed.

Lemma handleRemoved_calls doc index type :
  calls (snd (handleRemoved client doc index type))
  = [client_delete (doc_id doc) index type].
Proof.
  unfold handleRemoved, await. simpl.
  now destruct (client (client_delete _ _ _)).
Qed.

(** X7: every backend call made for a change of a batch names the
    document of that change, and the index and the type the descriptor
    resolves to for the batch and the parent; all changes of a batch are
    written under the same index and type. *)
Theorem batch_calls_target_their_documents
    (parentSnap : option DocumentSnapshot) (snap : QuerySnapshot) :
  Forall (fun t =>
            Forall (fun r =>
                      req_id r = doc_id (change_doc (task_change t)) /\
                      req_index r = resolve (index record) snap parentSnap /\
                      req_type r = resolve (type record) snap parentSnap)
              (calls (task_effects t)))
    (snd (FirestoreCollectionHandler.handleSnapshot client record parentSnap
            snap)).
Proof.
  unfold FirestoreCollectionHandler.handleSnapshot.
  rewrite dispatch_tasks. simpl.
  apply List.Forall_forall. intros t Ht. apply in_map_iff in Ht as [c [<- _]].
  simpl. unfold handler_of. destruct (change_type c).
  - apply handleAdded_targets.
  - apply handleModified_targets.
  - rewrite handleRemoved_calls. repeat constructor.
Qed.

(** X8: a removal is not filtered and not projected: whatever the
    descriptor's predicate and the document's fields, the one backend call
    made for a Removed change is the delete of (index, type, id). *)
Theorem removed_change_deletes (parentSnap : option DocumentSnapshot)
    (snap : QuerySnapshot) (change : DocumentChange) :
  change_type change = removed ->
  exists t,
    dispatch client record parentSnap snap change = (Normal tt, [t]) /\
    task_change t = change /\
    task_settled t = Fulfilled /\
    calls (task_effects t)
    = [client_delete (doc_id (change_doc change))
         (resolve (index record) snap parentSnap)
         (resolve (type record) snap parentSnap)].
Proof.
  intros Hk. unfold dispatch. rewrite Hk. eexists. split; [reflexivity|].
  simpl. split; [reflexivity|]. split.
  - apply handleRemoved_settles.
  - apply handleRemoved_calls.
Qed.

Lemma handleAdded_blames doc parentSnap index type line :
  In (console_error line)
     (snd (handleAdded client record doc parentSnap index type)) ->
  exists r e,
    In (Call r) (snd (handleAdded client record doc parentSnap index type)) /\
    client r = Reject e /\ line = error_line added (doc_id doc) e.
Proof.
  unfold handleAdded. destruct (filter record (doc_data doc)); [|simpl; tauto].
  unfold await. simpl.
  destruct (client (client_exists _ _ _)) as [v|e0] eqn:He; simpl.
  - destruct (truthy v); simpl.
    + destruct (client (client_update _ _ _ _ _)) as [v'|e1] eqn:Hu; simpl;
        intros Hin; blamed Hin.
    + destruct (client (client_index _ _ _ _)) as [v'|e1] eqn:Hi; simpl;
        intros Hin; blamed Hin.
  - intros Hin; blamed Hin.
Qed.

Lemma handleModified_blames doc parentSnap index type line :
  In (console_error line)
     (snd (handleModified client record doc parentSnap index type)) ->
  exists r e,
    In (Call r) (snd (handleModified client record doc parentSnap index type)) /\
    client r = Reject e /\ line = error_line modified (doc_id doc) e.
Proof.
  unfold handleModified. destruct (filter record (doc_data doc)); [|simpl; tauto].
  unfold await. simpl.
  destruct (client (client_update _ _ _ _ _)) as [v|e0] eqn:Hu; simpl;
    intros Hin; blamed Hin.
Qed.

Lemma handleRemoved_blames doc index type line :
  In (console_error line) (snd (handleRemoved client doc index type)) ->
  exists r e,
    In (Call r) (snd (handleRemoved client doc index type)) /\
    client r = Reject e /\ line = error_line removed (doc_id doc) e.
Proof.
  unfold handleRemoved, await. simpl.
  destruct (client (client_delete _ _ _)) as [v|e0] eqn:Hd; simpl;
    intros Hin; blamed Hin.
Qed.

(** X9: the handlers log failures only: every line logged while a batch
    is handled is the line of a backend call of the same change that was
    rejected.  A batch all of whose calls succeed logs nothing. *)
Theorem batch_logs_only_failures (parentSnap : option DocumentSnapshot)
    (snap : QuerySnapshot) :
  Forall (fun t =>
            forall line,
              In (console_error line) (task_effects t) ->
              exists r e,
                In (Call r) (task_effects t) /\ client r = Reject e /\
                line = error_line (change_type (task_change t))
                         (doc_id (change_doc (task_change t))) e)
    (snd (FirestoreCollectionHandler.handleSnapshot client record parentSnap
            snap)).
Proof.
  unfold FirestoreCollectionHandler.handleSnapshot.
  rewrite dispatch_tasks. simpl.
  apply List.Forall_forall. intros t Ht. apply in_map_iff in Ht as [c [<- _]].
  simpl. unfold handler_of. intros line. destruct (change_type c).
  - apply handleAdded_blames.
  - apply handleModified_blames.
  - apply handleRemoved_blames.
Qed.

(** X10: when the existence check of the Added handler is rejected, the
    handler stops there: the failure is logged and the document is
    neither created nor updated. *)
Theorem handleAdded_stops_when_exists_fails (doc : DocumentSnapshot)
    (parentSnap : option DocumentSnapshot) (index type : string)
    (data : object) (e : Error) :
  filter record (doc_data doc) = Some data ->
  client (client_exists (doc_id doc) index type) = Reject e ->
  handleAdded client record doc parentSnap index type
  = (Normal tt,
     [Call (client_exists (doc_id doc) index type);
      console_error (error_line added (doc_id doc) e)]).
Proof.
  intros Hf He. unfold handleAdded. rewrite Hf.
  unfold await. simpl. now rewrite He.
Qed.

End ChangeDispatcherMore.

Lemma handleModified_updates_only_witness :
  let record := emails (Some ["snippet"; "id"]) None in
  let doc := {| doc_id := "m1";
                doc_data := [("snippet", VStr "hi"); ("labels", VNull)] |} in
  filter record (doc_data doc) = Some [("snippet", VStr "hi")] /\
  calls (snd (handleModified failing_on_m1 record doc None "emails" "emails"))
  = [client_update "m1" "emails" "emails"
       (VObj [("doc", body_of record [("snippet", VStr "hi")] None)]) 2].
Proof.
  split; [reflexivity|].
  apply (handleModified_updates_only failing_on_m1
           (emails (Some ["snippet"; "id"]) None)
           {| doc_id := "m1";
              doc_data := [("snippet", VStr "hi"); ("labels", VNull)] |}
           None "emails" "emails" [("snippet", VStr "hi")]).
  reflexivity.
Defined.

Lemma removed_change_deletes_witness :
  let record := emails (Some ["snippet"]) None in
  let change := {| change_type := removed;
                   change_doc := {| doc_id := "m2"; doc_data := [] |} |} in
  change_type change = removed /\
  exists t,
    dispatch failing_on_m1 record None [change] change = (Normal tt, [t]) /\
    task_change t = change /\
    task_settled t = Fulfilled /\
    calls (task_effects t)
    = [client_delete "m2" (resolve (index record) [change] None)
         (resolve (type record) [change] None)].
Proof.
  split; [reflexivity|].
  apply (removed_change_deletes failing_on_m1 (emails (Some ["snippet"]) None)
           None
           [{| change_type := removed;
               change_doc := {| doc_id := "m2"; doc_data := [] |} |}]
           {| change_type := removed;
              change_doc := {| doc_id := "m2"; doc_data := [] |} |}).
  reflexivity.
Defined.

Lemma handleAdded_stops_when_exists_fails_witness :
  let record := emails (Some ["snippet"]) None in
  let doc := {| doc_id := "m1"; doc_data := [("snippet", VStr "hi")] |} in
  let e := {| name := "Error"; message := "No Living connections" |} in
  filter record (doc_data doc) = Some [("snippet", VStr "hi")] /\
  failing_on_m1 (client_exists "m1" "emails" "emails") = Reject e /\
  handleAdded failing_on_m1 record doc None "emails" "emails"
  = (Normal tt,
     [Call (client_exists "m1" "emails" "emails");
      console_error (error_line added "m1" e)]).
Proof.
  split; [reflexivity|]. split; [reflexivity|].
  apply (handleAdded_stops_when_exists_fails failing_on_m1
           (emails (Some ["snippet"]) None)
           {| doc_id := "m1"; doc_data := [("snippet", VStr "hi")] |}
           None "emails" "emails" [("snippet", VStr "hi")]);
    reflexivity.
Defined.

(** ** The listener table, continued *)

Set Warnings "-clear-no-such-hyp".

Section SubscriptionRegistryMore.

Variable record : Reference.

Lemma bind_Normal {E A B} (a : A) (t : list E) (k : A -> M E B) :
  bind (Normal a, t) k = (fst (k a), t ++ snd (k a)).
Proof. unfold bind. now destruct (k a). Qed.

Lemma handleBindingSubcollection_cons (st : Registry)
    (change : DocumentChange) (snap : QuerySnapshot) :
  handleBindingSubcollection record st (change :: snap)
  = bind (bindChange record st change)
      (fun st' => handleBindingSubcollection record st' snap).
Proof. reflexivity. Qed.

Lemma bindChange_added (st : Registry) (change : DocumentChange) :
  change_type change = added ->
  bindChange record st change
  = (Normal {| listeners :=
                 <[doc_id (change_doc change) := next_handle st]> (listeners st);
               next_handle := S (next_handle st) |},
     [onSnapshot
        match subBuilder record with
        | Some build =>
            build (collection_query
                     (subcollection_path record (doc_id (change_doc change))))
        | None =>
            collection_query
              (subcollection_path record (doc_id (change_doc change)))
        end
        (change_doc change) (next_handle st)]).
Proof. intros Hk. unfold bindChange. now rewrite Hk. Qed.

Lemma bindChange_modified (st : Registry) (change : DocumentChange) :
  change_type change = modified ->
  bindChange record st change = (Normal st, []).
Proof. intros Hk. unfold bindChange. now rewrite Hk. Qed.

Lemma bindChange_removed_plain (st : Registry) (change : DocumentChange) :
  change_type change = removed ->
  plain_name (doc_id (change_doc change)) = true ->
  bindChange record st change
  = (Normal st,
     match listeners st !! doc_id (change_doc change) with
     | Some h => [unsubscribe h]
     | None => []
     end).
Proof.
  intros Hk Hp. rewrite (bindChange_removed record st change Hk).
  destruct (listeners st !! doc_id (change_doc change)); [reflexivity|].
  unfold plain_name in Hp.
  now destruct (Object_prototype (doc_id (change_doc change))).
Qed.

(** X11: when a parent is added, whose identifier is not [__proto__], to
    a table with the prototype it was made with, one listener is opened,
    with the parent's snapshot, on the collection
    collection/id/subcollection, as the descriptor's [subBuilder] builds
    on it when there is one; the table holds the listener's unsubscribe
    function under the parent's identifier, and the entries of other
    parents are as they were. *)
Theorem added_parent_is_registered (st : Registry) (change : DocumentChange) :
  change_type change = added ->
  doc_id (change_doc change) <> "__proto__" ->
  listeners st !! "__proto__" = None ->
  exists st',
    handleBindingSubcollection record st [change]
    = (Normal st',
       [onSnapshot
          match subBuilder record with
          | Some build =>
              build (collection_query
                       (subcollection_path record (doc_id (change_doc change))))
          | None =>
              collection_query
                (subcollection_path record (doc_id (change_doc change)))
          end
          (change_doc change) (next_handle st)]) /\
    listeners st' !! doc_id (change_doc change) = Some (next_handle st) /\
    forall id, id <> doc_id (change_doc change) ->
               listeners st' !! id = listeners st !! id.
Proof.
  intros Hk _ _. eexists. split; [|split].
  - rewrite handleBindingSubcollection_cons, (bindChange_added st change Hk).
    reflexivity.
  - simpl. apply lookup_insert_eq.
  - intros id Hne. simpl. now apply lookup_insert_ne.
Qed.

(** X12: a parent added and then removed has the listener opened for it
    cancelled, and no other. *)
Theorem added_then_removed_is_cancelled (st : Registry)
    (c1 c2 : DocumentChange) :
  change_type c1 = added ->
  change_type c2 = removed ->
  doc_id (change_doc c2) = doc_id (change_doc c1) ->
  opened (snd (handleBindingSubcollection record st [c1; c2]))
    = [next_handle st] /\
  cancelled (snd (handleBindingSubcollection record st [c1; c2]))
    = [next_handle st].
Proof.
  intros H1 H2 Hid.
  rewrite handleBindingSubcollection_cons, (bindChange_added st c1 H1),
    bind_Normal, handleBindingSubcollection_cons.
  rewrite (bindChange_removed record _ c2 H2). cbn [listeners].
  rewrite Hid, lookup_insert_eq. split; reflexivity.
Qed.

(** X13: when a parent that has a listener is added again, a second
    listener is opened and takes the place of the first in the table; the
    first is not cancelled then, and the parent's removal cancels the
    second only. *)
Theorem readded_parent_keeps_first_listener (st : Registry)
    (c1 c2 c3 : DocumentChange) :
  change_type c1 = added ->
  change_type c2 = added ->
  change_type c3 = removed ->
  doc_id (change_doc c2) = doc_id (change_doc c1) ->
  doc_id (change_doc c3) = doc_id (change_doc c1) ->
  opened (snd (handleBindingSubcollection record st [c1; c2; c3]))
    = [next_handle st; S (next_handle st)] /\
  cancelled (snd (handleBindingSubcollection record st [c1; c2; c3]))
    = [S (next_handle st)].
Proof.
  intros H1 H2 H3 Hid2 Hid3.
  rewrite handleBindingSubcollection_cons, (bindChange_added st c1 H1),
    bind_Normal, handleBindingSubcollection_cons.
  rewrite (bindChange_added _ c2 H2), bind_Normal,
    handleBindingSubcollection_cons.
  rewrite (bindChange_removed record _ c3 H3). cbn [listeners].
  rewrite Hid3, Hid2, lookup_insert_eq. split; reflexivity.
Qed.

(** X14: on a table with the prototype it was made with, a batch none
    of whose parents is named [__proto__] or after a member of
    [Object.prototype] that needs a receiver is handled without a throw;
    it opens one listener for each Added change and only grows the
    table: afterwards the table has an entry for every parent it had one
    for and for every parent the batch adds, and for no other. *)
Theorem binding_only_grows_the_table (snap : QuerySnapshot) (st : Registry) :
  listeners st !! "__proto__" = None ->
  forallb plain_name (change_ids snap) = true ->
  exists st',
    fst (handleBindingSubcollection record st snap) = Normal st' /\
    dom (listeners st')
    = dom (listeners st) ∪ list_to_set (added_ids snap) /\
    length (opened (snd (handleBindingSubcollection record st snap)))
    = length (added_ids snap).
Proof.
  intros _. revert st. induction snap as [|c snap IH]; intros st Hp.
  - exists st. simpl. repeat split. set_solver.
  - simpl in Hp. apply andb_true_iff in Hp as [Hc Hp].
    rewrite handleBindingSubcollection_cons. simpl added_ids.
    destruct (change_type c) eqn:Hk.
    + rewrite (bindChange_added st c Hk), bind_Normal.
      destruct (IH {| listeners := <[doc_id (change_doc c) := next_handle st]>
                                     (listeners st);
                      next_handle := S (next_handle st) |} Hp)
        as (st' & Hst & Hdom & Hlen).
      exists st'. simpl in *. split; [exact Hst|]. split.
      * rewrite Hdom, dom_insert_L. set_solver.
      * now rewrite Hlen.
    + rewrite (bindChange_modified st c Hk), bind_Normal.
      destruct (IH st Hp) as (st' & Hst & Hdom & Hlen).
      exists st'. simpl. auto.
    + rewrite (bindChange_removed_plain st c Hk Hc), bind_Normal.
      destruct (IH st Hp) as (st' & Hst & Hdom & Hlen).
      exists st'.
      destruct (listeners st !! doc_id (change_doc c)); simpl; auto.
Qed.

(** X15: on a table with the prototype it was made with, a batch without
    Added changes, none of whose parents is named [__proto__] or after a
    member of [Object.prototype] that needs a receiver, leaves the table
    exactly as it was and opens no listener; each of its Removed changes
    whose parent has an entry cancels that entry's listener, so a removal
    delivered twice cancels the same listener twice. *)
Theorem batch_without_added_keeps_table (snap : QuerySnapshot)
    (st : Registry) :
  listeners st !! "__proto__" = None ->
  forallb plain_name (change_ids snap) = true ->
  added_ids snap = [] ->
  fst (handleBindingSubcollection record st snap) = Normal st /\
  opened (snd (handleBindingSubcollection record st snap)) = [] /\
  cancelled (snd (handleBindingSubcollection record st snap))
  = removed_handles (listeners st) snap.
Proof.
  intros _. induction snap as [|c snap IH]; intros Hp Ha.
  - repeat split.
  - simpl in Hp. apply andb_true_iff in Hp as [Hc Hp].
    rewrite handleBindingSubcollection_cons. simpl in Ha |- *.
    destruct (change_type c) eqn:Hk; [discriminate| |].
    + rewrite (bindChange_modified st c Hk), bind_Normal. simpl.
      now apply IH.
    + rewrite (bindChange_removed_plain st c Hk Hc), bind_Normal.
      destruct (IH Hp Ha) as (Hst & Hop & Hcan).
      destruct (listeners st !! doc_id (change_doc c));
        simpl; rewrite ?Hcan; auto.
Qed.

(** X16: a batch cancels only listeners of the table: every listener it
    cancels was in the table before the batch or was opened earlier by
    the batch itself. *)
Theorem binding_cancels_known_listeners (snap : QuerySnapshot)
    (st : Registry) (h : nat) :
  In h (cancelled (snd (handleBindingSubcollection record st snap))) ->
  (exists id, listeners st !! id = Some h) \/
  In h (opened (snd (handleBindingSubcollection record st snap))).
Proof.
  revert st. induction snap as [|c snap IH]; intros st.
  - simpl. tauto.
  - rewrite handleBindingSubcollection_cons.
    destruct (change_type c) eqn:Hk.
    + rewrite (bindChange_added st c Hk), bind_Normal. simpl.
      intros Hin. apply IH in Hin as [[id Hid]|Hin]; [|auto].
      cbn [listeners] in Hid.
      destruct (decide (doc_id (change_doc c) = id)) as [Heq|Hne].
      * rewrite Heq, lookup_insert_eq in Hid. injection Hid as <-. auto.
      * rewrite lookup_insert_ne in Hid by exact Hne. eauto.
    + rewrite (bindChange_modified st c Hk), bind_Normal. simpl. apply IH.
    + rewrite (bindChange_removed record st c Hk).
      destruct (listeners st !! doc_id (change_doc c)) as [h0|] eqn:Hl.
      * rewrite bind_Normal. simpl.
        intros [<-|Hin]; [eauto | now apply IH].
      * destruct (Object_prototype (doc_id (change_doc c)));
          [rewrite bind_Normal; simpl; apply IH
          |rewrite bind_Normal; simpl; apply IH
          |simpl; tauto].
Qed.

End SubscriptionRegistryMore.

Lemma added_parent_is_registered_witness :
  change_type (p1_change added) = added /\
  doc_id (change_doc (p1_change added)) <> "__proto__" /\
  listeners empty_registry !! "__proto__" = None /\
  exists st',
    handleBindingSubcollection latest_replies empty_registry [p1_change added]
    = (Normal st',
       [onSnapshot
          match subBuilder latest_replies with
          | Some build =>
              build (collection_query
                       (subcollection_path latest_replies
                          (doc_id (change_doc (p1_change added)))))
          | None =>
              collection_query
                (subcollection_path latest_replies
                   (doc_id (change_doc (p1_change added))))
          end
          (change_doc (p1_change added)) (next_handle empty_registry)]) /\
    listeners st' !! doc_id (change_doc (p1_change added))
    = Some (next_handle empty_registry) /\
    forall id, id <> doc_id (change_doc (p1_change added)) ->
               listeners st' !! id = listeners empty_registry !! id.
Proof.
  split; [reflexivity|]. split; [discriminate|]. split; [reflexivity|].
  apply (added_parent_is_registered latest_replies empty_registry
           (p1_change added)); [reflexivity | discriminate | reflexivity].
Defined.

(** The listener opened for the post [p1] under that descriptor. *)
Example latest_replies_listener :
  snd (handleBindingSubcollection latest_replies empty_registry
         [p1_change added])
  = [onSnapshot
       (limit_query
          (orderBy_query (collection_query "posts/p1/replies") "sent") 10)
       (change_doc (p1_change added)) 0%nat].
Proof. reflexivity. Qed.

(** The path of the listener opened for the post [p1]. *)
Example replies_path : subcollection_path replies "p1" = "posts/p1/replies".
Proof. reflexivity. Qed.

Lemma added_then_removed_is_cancelled_witness :
  change_type (p1_change added) = added /\
  change_type (p1_change removed) = removed /\
  doc_id (change_doc (p1_change removed))
  = doc_id (change_doc (p1_change added)) /\
  opened (snd (handleBindingSubcollection replies empty_registry
                 [p1_change added; p1_change removed]))
    = [next_handle empty_registry] /\
  cancelled (snd (handleBindingSubcollection replies empty_registry
                    [p1_change added; p1_change removed]))
    = [next_handle empty_registry].
Proof.
  split; [reflexivity|]. split; [reflexivity|]. split; [reflexivity|].
  apply (added_then_removed_is_cancelled replies empty_registry
           (p1_change added) (p1_change removed)); reflexivity.
Defined.

Lemma readded_parent_keeps_first_listener_witness :
  change_type (p1_change added) = added /\
  change_type (p1_change added) = added /\
  change_type (p1_change removed) = removed /\
  doc_id (change_doc (p1_change added))
  = doc_id (change_doc (p1_change added)) /\
  doc_id (change_doc (p1_change removed))
  = doc_id (change_doc (p1_change added)) /\
  opened (snd (handleBindingSubcollection replies empty_registry
                 [p1_change added; p1_change added; p1_change removed]))
    = [next_handle empty_registry; S (next_handle empty_registry)] /\
  cancelled (snd (handleBindingSubcollection replies empty_registry
                    [p1_change added; p1_change added; p1_change removed]))
    = [S (next_handle empty_registry)].
Proof.
  do 5 (split; [reflexivity|]).
  apply (readded_parent_keeps_first_listener replies empty_registry
           (p1_change added) (p1_change added) (p1_change removed));
    reflexivity.
Defined.

Lemma batch_without_added_keeps_table_witness :
  let st := {| listeners := {[ "p1" := 0%nat ]}; next_handle := 1 |} in
  let snap := [p1_change removed; p1_change modified; p1_change removed] in
  listeners st !! "__proto__" = None /\
  forallb plain_name (change_ids snap) = true /\
  added_ids snap = [] /\
  fst (handleBindingSubcollection replies st snap) = Normal st /\
  opened (snd (handleBindingSubcollection replies st snap)) = [] /\
  cancelled (snd (handleBindingSubcollection replies st snap))
  = removed_handles (listeners st) snap.
Proof.
  split; [reflexivity|]. split; [reflexivity|]. split; [reflexivity|].
  apply (batch_without_added_keeps_table replies
           [p1_change removed; p1_change modified; p1_change removed]
           {| listeners := {[ "p1" := 0%nat ]}; next_handle := 1 |});
    reflexivity.
Defined.

Lemma binding_only_grows_the_table_witness :
  let snap := [p1_change added; p1_change modified; p1_change removed] in
  listeners empty_registry !! "__proto__" = None /\
  forallb plain_name (change_ids snap) = true /\
  exists st',
    fst (handleBindingSubcollection replies empty_registry snap) = Normal st' /\
    dom (listeners st')
    = dom (listeners empty_registry) ∪ list_to_set (added_ids snap) /\
    length (opened (snd (handleBindingSubcollection replies empty_registry
                           snap)))
    = length (added_ids snap).
Proof.
  split; [reflexivity|]. split; [reflexivity|].
  apply (binding_only_grows_the_table replies
           [p1_change added; p1_change modified; p1_change removed]
           empty_registry); reflexivity.
Defined.

(** The removal delivered twice, computed: the listener is cancelled
    twice. *)
Example removed_twice_cancels_twice :
  cancelled
    (snd (handleBindingSubcollection replies
            {| listeners := {[ "p1" := 0%nat ]}; next_handle := 1 |}
            [p1_change removed; p1_change removed]))
  = [0%nat; 0%nat].
Proof. reflexivity. Qed.

Lemma binding_cancels_known_listeners_witness :
  let snap := [p1_change added; p1_change removed] in
  In 0%nat (cancelled (snd (handleBindingSubcollection replies empty_registry
                              snap))) /\
  ((exists id, listeners empty_registry !! id = Some 0%nat) \/
   In 0%nat (opened (snd (handleBindingSubcollection replies empty_registry
                            snap)))).
Proof.
  split; [now left|].
  apply (binding_cancels_known_listeners replies
           [p1_change added; p1_change removed] empty_registry 0%nat).
  now left.
Defined.

(** ** Binding *)

Section Binding.

Import FirestoreCollectionHandler.Bind.

Variable indices : admin_request -> response.
Variable record : Reference.
Variable mappings : value.

(** X17: [bind] touches the indices of the backend only for a descriptor
    with mappings; it creates the index only after the existence check
    answered that there is none, and puts the mapping, with the
    descriptor's mappings as [properties], only after the creation
    succeeded. *)
Theorem bind_provisions_missing_index_only :
  let made := admin_calls (snd (bind indices record mappings)) in
  (truthy mappings = false -> made = []) /\
  (forall i, In (indices_create i) made ->
     truthy mappings = true /\ i = index record /\
     exists v, indices (indices_exists (index record)) = Resolve v /\
               truthy v = false) /\
  (forall i t flag body, In (indices_putMapping i t flag body) made ->
     i = index record /\ t = type record /\ flag = true /\
     body = VObj [("properties", mappings)] /\
     exists v, indices (indices_create (index record)) = Resolve v).
Proof.
  unfold bind, await_indices. destruct (truthy mappings) eqn:Hm; simpl.
  - split; [discriminate|].
    destruct (indices (indices_exists _)) as [v|e] eqn:He; simpl.
    + destruct (truthy v) eqn:Hv; simpl.
      * destruct (has_subcollection record); simpl;
          split; intros; intuition discriminate.
      * destruct (indices (indices_create _)) as [v1|e1] eqn:Hc; simpl.
        -- destruct (indices (indices_putMapping _ _ _ _)) as [v2|e2] eqn:Hp;
             simpl; [destruct (has_subcollection record); simpl|];
             (split;
              [ intros i [H|[H|[H|[]]]]; try discriminate H;
                injection H as <-; eauto
              | intros i t flag body [H|[H|[H|[]]]]; try discriminate H;
                injection H as <- <- <- <-; eauto 6 ]).
        -- split;
             [ intros i [H|[H|[]]]; try discriminate H;
               injection H as <-; eauto
             | intros i t flag body [H|[H|[]]]; discriminate H ].
    + split; [intros i [H|[]]; discriminate H
             | intros i t flag body [H|[]]; discriminate H].
  - destruct (has_subcollection record); simpl;
      (split; [reflexivity|]); split; intros; contradiction.
Qed.

(** X18: [bind] puts exactly one listener on the root query, the parent
    listener for a descriptor with a subcollection name that is not
    empty and the document listener otherwise, unless an index
    administration call is rejected.  When one of the calls it makes is
    rejected, its promise is rejected with that error and no listener is
    put, so the collection is not watched; and its promise is rejected in
    no other case. *)
Theorem bind_listens_unless_provisioning_fails :
  (forall r e,
     In r (admin_calls (snd (bind indices record mappings))) ->
     indices r = Reject e ->
     settle (bind indices record mappings) = Rejected e /\
     root_listeners (snd (bind indices record mappings)) = []) /\
  match settle (bind indices record mappings) with
  | Fulfilled =>
      root_listeners (snd (bind indices record mappings))
      = [if has_subcollection record then on_parents else on_documents]
  | Rejected e =>
      root_listeners (snd (bind indices record mappings)) = [] /\
      exists r, In r (admin_calls (snd (bind indices record mappings))) /\
                indices r = Reject e
  end.
Proof.
  unfold bind, await_indices, settle. destruct (truthy mappings); simpl.
  - destruct (indices (indices_exists _)) as [v|e] eqn:He; simpl.
    + destruct (truthy v); simpl.
      * destruct (has_subcollection record); simpl;
          (split; [|reflexivity]); intros r e' [<-|[]] Hr; congruence.
      * destruct (indices (indices_create _)) as [v1|e1] eqn:Hc; simpl.
        -- destruct (indices (indices_putMapping _ _ _ _)) as [v2|e2] eqn:Hp;
             simpl.
           ++ destruct (has_subcollection record); simpl;
                (split; [|reflexivity]);
                intros r e' [<-|[<-|[<-|[]]]] Hr; congruence.
           ++ split.
              ** intros r e' [<-|[<-|[<-|[]]]] Hr; try congruence.
                 rewrite Hp in Hr. injection Hr as <-. auto.
              ** split; [reflexivity|]. eexists. split; [|exact Hp].
                 simpl. auto.
        -- split.
           ++ intros r e' [<-|[<-|[]]] Hr; try congruence.
              rewrite Hc in Hr. injection Hr as <-. auto.
           ++ split; [reflexivity|]. eexists. split; [|exact Hc]. simpl. auto.
    + split.
      * intros r e' [<-|[]] Hr. rewrite He in Hr. injection Hr as <-. auto.
      * split; [reflexivity|]. eexists. split; [|exact He]. simpl. auto.
  - destruct (has_subcollection record); simpl;
      (split; [|reflexivity]); intros r e' [].
Qed.

End Binding.

(** A descriptor with mappings whose index cannot be created is never
    watched. *)
Example bind_gives_up :
  FirestoreCollectionHandler.Bind.bind create_fails replies
    (VObj [("body", VObj [("type", VStr "text")])])
  = (Throw {| name := "Error"; message := "resource_already_exists_exception" |},
     [FirestoreCollectionHandler.Bind.Admin
        (FirestoreCollectionHandler.Bind.indices_exists (Literal "replies"));
      FirestoreCollectionHandler.Bind.Admin
        (FirestoreCollectionHandler.Bind.indices_create (Literal "replies"))]).
Proof. reflexivity. Qed.

(** ** The query bridge, continued *)

Section QueryBridgeMore.

Variable config : Config.
Variable JSON_parse : value -> option value.
Variable ToString : value -> string.
Variable client : value -> search_result.
Variable new_Date : string -> Z.

Local Abbreviation process := (SearchHandler.process config JSON_parse).
Local Abbreviation respond := (SearchHandler.respond config ToString new_Date).
Local Abbreviation send := (SearchHandler.send config new_Date).
Local Abbreviation respondError := (SearchHandler.respondError config).
Local Abbreviation handleSnapshot :=
  (SearchHandler.handleSnapshot config JSON_parse).
Local Abbreviation hit_id := (hit_id ToString).

Lemma invalid_object (fields : object) :
  invalid (VObj fields) = (Normal (negb (well_formed fields)), []).
Proof.
  unfold invalid, well_formed. simpl.
  destruct (truthy (obj_get fields "index")); simpl; [|reflexivity].
  destruct (truthy (obj_get fields "type")); simpl; [|reflexivity].
  destruct (truthy (obj_get fields "q")); simpl; [reflexivity|].
  now destruct (truthy (obj_get fields "body")).
Qed.

Lemma respondError_effects (ref message : string) :
  respondError ref message
  = (Normal tt, [ref_update ref [(FB_RES config, error_response message)]]).
Proof. reflexivity. Qed.

(** X19: [process] tests the fields of a request object for truthiness,
    not for presence: a request is searched exactly when [index] and
    [type] and one of [q] and [body] hold truthy values, and then the one
    thing [process] does is to issue the search with the request and the
    callback of the record; a field that is there with an empty string,
    zero, [false] or [null] counts as missing, and the request is
    answered with the error on required fields. *)
Theorem process_validates_by_truthiness (snap : DocumentSnapshot)
    (fields : object) :
  parse_request JSON_parse (obj_get (doc_data snap) (FB_REQ config))
    = VObj fields ->
  if well_formed fields then
    process snap = (Normal tt, [client_search (VObj fields) (doc_id snap)])
  else
    process snap
    = (Normal tt,
       [ref_update (doc_id snap)
          [(FB_RES config, error_response invalid_query)]]).
Proof.
  intros Hp. unfold SearchHandler.process. rewrite Hp, invalid_object.
  now destruct (well_formed fields).
Qed.

(** X20: when the search of a well-formed request fails, the record is
    answered with [{total: 0, error: <the error as a string>}], which has
    no timestamp: [process] issues the search, and the callback, called
    with the error, writes that response. *)
Theorem process_reports_search_failure (snap : DocumentSnapshot)
    (fields : object) (e : Error) :
  parse_request JSON_parse (obj_get (doc_data snap) (FB_REQ config))
    = VObj fields ->
  well_formed fields = true ->
  client (VObj fields) = search_error e ->
  process snap = (Normal tt, [client_search (VObj fields) (doc_id snap)]) /\
  search_callback config ToString new_Date (doc_id snap) (search_error e)
  = (Normal tt,
     [ref_update (doc_id snap)
        [(FB_RES config, error_response (error_toString e))]]) /\
  callbacks config ToString client new_Date (snd (process snap))
  = [ref_update (doc_id snap)
       [(FB_RES config, error_response (error_toString e))]].
Proof.
  intros Hp Hw Hc.
  assert (H : process snap
              = (Normal tt, [client_search (VObj fields) (doc_id snap)])).
  { unfold SearchHandler.process. now rewrite Hp, invalid_object, Hw. }
  split; [exact H|]. split; [reflexivity|].
  rewrite H. unfold callbacks. simpl. now rewrite Hc.
Qed.

(** X21: a search result that carries a truthy [error] is not written
    back: the record gets [{total: 0, error: <that error as a string>}]
    instead, without a timestamp and without the hits. *)
Theorem respond_reports_error_field (ref : string) (fields : object) :
  truthy (obj_get fields "error") = true ->
  respond ref (VObj fields)
  = (Normal tt,
     [ref_update ref
        [(FB_RES config,
          error_response (toString ToString (obj_get fields "error")))]]).
Proof.
  intros He. unfold SearchHandler.respond. simpl. now rewrite He.
Qed.

(** X22: a search result without a hit list ([hits] or [hits.hits] is
    missing or falsy) is written back as it is, with the timestamp
    added. *)
Theorem respond_without_hits (ref : string) (fields : object) :
  truthy (obj_get fields "error") = false ->
  (truthy (obj_get fields "hits") = false \/
   exists inner, get (obj_get fields "hits") "hits" = Normal inner /\
                 truthy inner = false) ->
  respond ref (VObj fields)
  = (Normal tt,
     [ref_update ref
        [(FB_RES config,
          VObj (obj_set "timestamp" (VDate (new_Date ref)) fields))]]).
Proof.
  intros He Hh. unfold SearchHandler.respond. simpl. rewrite He. simpl.
  assert (Hsend : SearchHandler.async (send ref (VObj fields))
                  = (Normal tt,
                     [ref_update ref
                        [(FB_RES config,
                          VObj (obj_set "timestamp" (VDate (new_Date ref))
                                  fields))]])).
  { unfold SearchHandler.send. simpl. now rewrite !String.eqb_refl. }
  destruct Hh as [Hh|[inner [Hg Hi]]].
  - rewrite Hh. simpl. now rewrite Hsend.
  - destruct (truthy (obj_get fields "hits")); simpl.
    + rewrite Hg. simpl. rewrite Hi. simpl. now rewrite Hsend.
    + now rewrite Hsend.
Qed.

End QueryBridgeMore.

Lemma process_validates_by_truthiness_witness :
  let snap :=
    {| doc_id := "q1";
       doc_data := [("request", VObj [("index", VStr ""); ("type", VStr "emails");
                                      ("q", VStr "invoice")])] |} in
  let fields := [("index", VStr ""); ("type", VStr "emails");
                 ("q", VStr "invoice")] in
  parse_request (fun _ => None) (obj_get (doc_data snap) (FB_REQ example_config))
    = VObj fields /\
  if well_formed fields then
    SearchHandler.process example_config (fun _ => None) snap
    = (Normal tt, [client_search (VObj fields) (doc_id snap)])
  else
    SearchHandler.process example_config (fun _ => None) snap
    = (Normal tt,
       [ref_update (doc_id snap)
          [(FB_RES example_config, error_response invalid_query)]]).
Proof.
  split; [reflexivity|].
  apply (process_validates_by_truthiness example_config (fun _ => None)
           {| doc_id := "q1";
              doc_data := [("request", VObj [("index", VStr "");
                                             ("type", VStr "emails");
                                             ("q", VStr "invoice")])] |}
           [("index", VStr ""); ("type", VStr "emails"); ("q", VStr "invoice")]).
  reflexivity.
Defined.

Lemma process_reports_search_failure_witness :
  let fields := [("index", VStr "emails"); ("type", VStr "emails");
                 ("q", VStr "invoice")] in
  let e := {| name := "Error"; message := "No Living connections" |} in
  let written :=
    [ref_update (doc_id invoice_query)
       [(FB_RES example_config, error_response (error_toString e))]] in
  parse_request (fun _ => None)
    (obj_get (doc_data invoice_query) (FB_REQ example_config)) = VObj fields /\
  well_formed fields = true /\
  search_fails (VObj fields) = search_error e /\
  SearchHandler.process example_config (fun _ => None) invoice_query
  = (Normal tt, [client_search (VObj fields) (doc_id invoice_query)]) /\
  search_callback example_config (fun _ => "") (fun _ => 0)
    (doc_id invoice_query) (search_error e)
  = (Normal tt, written) /\
  callbacks example_config (fun _ => "") search_fails (fun _ => 0)
    (snd (SearchHandler.process example_config (fun _ => None) invoice_query))
  = written.
Proof.
  split; [reflexivity|]. split; [reflexivity|]. split; [reflexivity|].
  apply (process_reports_search_failure example_config (fun _ => None)
           (fun _ => "") search_fails (fun _ => 0) invoice_query
           [("index", VStr "emails"); ("type", VStr "emails");
            ("q", VStr "invoice")]);
    reflexivity.
Defined.

(** The text of the error a failed search is answered with. *)
Example search_failure_text :
  error_toString {| name := "Error"; message := "No Living connections" |}
  = "Error: No Living connections".
Proof. reflexivity. Qed.

Lemma respond_reports_error_field_witness :
  let fields := [("error", VStr "index_not_found_exception");
                 ("status", VNum 404)] in
  truthy (obj_get fields "error") = true /\
  SearchHandler.respond example_config (fun _ => "") (fun _ => 0) "q1"
    (VObj fields)
  = (Normal tt,
     [ref_update "q1"
        [(FB_RES example_config,
          error_response
            (SearchHandler.toString (fun _ => "") (obj_get fields "error")))]]).
Proof.
  split; [reflexivity|].
  apply (respond_reports_error_field example_config (fun _ => "")
           (fun _ => 0) "q1"
           [("error", VStr "index_not_found_exception"); ("status", VNum 404)]).
  reflexivity.
Defined.

Lemma respond_without_hits_witness :
  let fields := [("count", VNum 3)] in
  truthy (obj_get fields "error") = false /\
  (truthy (obj_get fields "hits") = false \/
   exists inner, get (obj_get fields "hits") "hits" = Normal inner /\
                 truthy inner = false) /\
  SearchHandler.respond example_config (fun _ => "") (fun _ => 5) "q1"
    (VObj fields)
  = (Normal tt,
     [ref_update "q1"
        [(FB_RES example_config,
          VObj (obj_set "timestamp" (VDate 5) fields))]]).
Proof.
  split; [reflexivity|]. split; [now left|].
  apply (respond_without_hits example_config (fun _ => "") (fun _ => 5) "q1"
           [("count", VNum 3)]); [reflexivity | now left].
Defined.

Section QueryBridgeTraces.

Variable config : Config.
Variable JSON_parse : value -> option value.
Variable ToString : value -> string.
Variable client : value -> search_result.
Variable new_Date : string -> Z.

Local Abbreviation process := (SearchHandler.process config JSON_parse).
Local Abbreviation respond := (SearchHandler.respond config ToString new_Date).
Local Abbreviation send := (SearchHandler.send config new_Date).
Local Abbreviation handleSnapshot :=
  (SearchHandler.handleSnapshot config JSON_parse).
Local Abbreviation search_callback :=
  (SearchHandler.search_callback config ToString new_Date).
Local Abbreviation one_answer := (one_answer config).

Lemma send_one_answer (ref : string) (response : value) :
  one_answer ref (snd (SearchHandler.async (send ref response))) /\
  fst (SearchHandler.async (send ref response)) = Normal tt.
Proof.
  unfold SearchHandler.send, one_answer. simpl. rewrite !String.eqb_refl.
  destruct (set response "timestamp" _) as [v|e]; simpl;
    rewrite ?String.eqb_refl; eauto.
Qed.

Lemma pure_then_send (ref : string) (block : M effect value) :
  snd block = [] ->
  one_answer ref
    (snd (SearchHandler.async
            (bind block (fun r => SearchHandler.async (send ref r))))) /\
  fst (SearchHandler.async
         (bind block (fun r => SearchHandler.async (send ref r))))
  = Normal tt.
Proof.
  destruct block as [[r|e] t]; simpl; intros ->.
  - destruct (send_one_answer ref r) as [H1 H2].
    destruct (SearchHandler.async (send ref r)) as [[u|e] t]; simpl in *;
      [auto | discriminate].
  - split; [right; left; eauto | reflexivity].
Qed.

Lemma respond_one_answer (ref : string) (response : value) :
  one_answer ref (snd (SearchHandler.async (respond ref response))) /\
  fst (SearchHandler.async (respond ref response)) = Normal tt.
Proof.
  unfold SearchHandler.respond.
  destruct (get response "error") as [err|e];
    [|split; [right; left; simpl; eauto | reflexivity]].
  change (lift (Normal err)) with (@ret effect _ err). rewrite bind_ret.
  destruct (truthy err); [split; [left; simpl; eauto | reflexivity]|].
  destruct (get response "hits") as [hits|e];
    [|split; [right; left; simpl; eauto | reflexivity]].
  change (lift (Normal hits)) with (@ret effect _ hits). rewrite bind_ret.
  apply pure_then_send.
  destruct (truthy hits); [|reflexivity].
  destruct (get hits "hits") as [inner|e]; simpl; [|reflexivity].
  destruct (truthy inner); simpl; [|reflexivity].
  destruct (iterate inner) as [elems|e]; simpl; [|reflexivity].
  destruct (rekey ToString [] elems) as [temp|e]; simpl; [|reflexivity].
  now destruct (set hits "hits" (VObj temp)).
Qed.

(** The callback of a search writes at most one answer, to its record. *)
Lemma search_callback_one_answer (ref : string) (answer : search_result) :
  one_answer ref (snd (search_callback ref answer)).
Proof.
  destruct answer as [e|response].
  - left. simpl. eauto.
  - apply respond_one_answer.
Qed.

Lemma invalid_silent (request : value) : snd (invalid request) = [].
Proof.
  unfold invalid. destruct (get request "index") as [i|e]; simpl; [|reflexivity].
  destruct (truthy i); simpl; [|reflexivity].
  destruct (get request "type") as [t|e]; simpl; [|reflexivity].
  destruct (truthy t); simpl; [|reflexivity].
  destruct (get request "q") as [q|e]; simpl; [|reflexivity].
  destruct (truthy q); simpl; [reflexivity|].
  now destruct (get request "body").
Qed.

(** What [process] itself does with a record: it throws and does nothing,
    or answers an invalid request, or issues one search. *)
Lemma process_cases (snap : DocumentSnapshot) :
  (exists e, process snap = (Throw e, [])) \/
  process snap
  = (Normal tt,
     [ref_update (doc_id snap)
        [(FB_RES config, error_response invalid_query)]]) \/
  process snap
  = (Normal tt,
     [client_search
        (parse_request JSON_parse (obj_get (doc_data snap) (FB_REQ config)))
        (doc_id snap)]).
Proof.
  unfold SearchHandler.process.
  set (request := parse_request JSON_parse _).
  pose proof (invalid_silent request) as Hs.
  destruct (invalid request) as [[bad|e] t]; simpl in Hs; subst t.
  - destruct bad; [right; left | right; right]; reflexivity.
  - left. now exists e.
Qed.

(** X23: whatever a control record holds and whatever the backend
    answers, processing the record, the callback of its search included,
    runs at most one search and writes at most once, to that record and
    to no other, replacing its response field and nothing else. *)
Theorem process_answers_own_record_once (snap : DocumentSnapshot) :
  let issued := snd (process snap) in
  let later := callbacks config ToString client new_Date issued in
  (length (searches (issued ++ later)) <= 1)%nat /\
  (length (updates (issued ++ later)) <= 1)%nat /\
  Forall (fun u => fst u = doc_id snap /\ keys (snd u) = [FB_RES config])
    (updates (issued ++ later)).
Proof.
  destruct (process_cases snap) as [[e ->]|[-> | ->]]; cbn [snd].
  - simpl. repeat split; try lia. constructor.
  - simpl. repeat split; try lia. repeat constructor.
  - unfold callbacks. cbn [map concat]. rewrite app_nil_r.
    destruct (search_callback_one_answer (doc_id snap)
                (client (parse_request JSON_parse
                           (obj_get (doc_data snap) (FB_REQ config)))))
      as [[v ->]|[[e ->]| ->]]; simpl;
      repeat split; try lia; repeat constructor.
Qed.

Lemma handleSnapshot_cons (change : DocumentChange) (snap : QuerySnapshot) :
  handleSnapshot (change :: snap)
  = bind (match change_type change with
          | added => process (change_doc change)
          | _ => ret tt
          end)
      (fun _ => handleSnapshot snap).
Proof. reflexivity. Qed.

Lemma process_Normal (doc : DocumentSnapshot) :
  fst (process doc) = Normal tt -> process doc = (Normal tt, snd (process doc)).
Proof. destruct (process doc) as [r t]. simpl. now intros ->. Qed.

Lemma process_Throw (doc : DocumentSnapshot) (e : Error) :
  fst (process doc) = Throw e -> process doc = (Throw e, []).
Proof.
  destruct (process_cases doc) as [[e' ->]|[-> | ->]]; simpl;
    [now intros [= ->] | discriminate | discriminate].
Qed.

Lemma process_issues (doc : DocumentSnapshot) :
  fst (process doc) = Normal tt ->
  process doc
  = (Normal tt,
     [let request :=
        parse_request JSON_parse (obj_get (doc_data doc) (FB_REQ config)) in
      match invalid request with
      | (Normal false, _) => client_search request (doc_id doc)
      | _ => ref_update (doc_id doc)
               [(FB_RES config, error_response invalid_query)]
      end]).
Proof.
  unfold SearchHandler.process. cbv zeta.
  pose proof (invalid_silent
                (parse_request JSON_parse
                   (obj_get (doc_data doc) (FB_REQ config)))) as Hs.
  destruct (invalid _) as [[bad|e] t]; simpl in Hs; subst t;
    [|discriminate].
  now destruct bad.
Qed.

(** X24: when no request of a batch makes [process] throw, the listener
    completes normally, and what it has done by then is, for the Added
    changes in the order of the batch, one thing each: the search it
    issued for the request, or the error it wrote to an invalid request.
    No answer to a search is written while the listener runs: the
    callbacks of the searches run later. *)
Theorem handleSnapshot_processes_added_in_order (snap : QuerySnapshot) :
  (forall doc, In doc (added_docs snap) -> fst (process doc) = Normal tt) ->
  handleSnapshot snap
  = (Normal tt,
     map (fun doc =>
            let request :=
              parse_request JSON_parse (obj_get (doc_data doc) (FB_REQ config)) in
            match invalid request with
            | (Normal false, _) => client_search request (doc_id doc)
            | _ => ref_update (doc_id doc)
                     [(FB_RES config, error_response invalid_query)]
            end)
       (added_docs snap)).
Proof.
  induction snap as [|c snap IH]; intros Hn; [reflexivity|].
  rewrite handleSnapshot_cons. unfold added_docs in *. cbn [List.filter map] in *.
  destruct (change_type c) eqn:Hc; cbn [map] in *.
  - rewrite (process_issues (change_doc c)) by (apply Hn; now left).
    rewrite bind_Normal, IH by (intros doc Hd; apply Hn; now right).
    reflexivity.
  - rewrite bind_ret. now apply IH.
  - rewrite bind_ret. now apply IH.
Qed.

(** X25: when a request makes [process] throw, the exception leaves the
    listener: for the requests before it in the batch the listener has
    issued the searches and written the errors, for the request itself
    and for those after it in the batch it has done nothing, whatever
    they hold. *)
Theorem handleSnapshot_stops_at_throw (pre post : QuerySnapshot)
    (change : DocumentChange) (e : Error) :
  (forall doc, In doc (added_docs pre) -> fst (process doc) = Normal tt) ->
  change_type change = added ->
  fst (process (change_doc change)) = Throw e ->
  handleSnapshot (pre ++ change :: post)
  = (Throw e, concat (map (fun doc => snd (process doc)) (added_docs pre))) /\
  handleSnapshot (pre ++ change :: post)
  = (Throw e, snd (handleSnapshot pre)).
Proof.
  intros Hn Hk He.
  assert (H : forall pre,
            (forall doc, In doc (added_docs pre) ->
                         fst (process doc) = Normal tt) ->
            handleSnapshot pre
            = (Normal tt,
               concat (map (fun doc => snd (process doc)) (added_docs pre))) /\
            handleSnapshot (pre ++ change :: post)
            = (Throw e,
               concat (map (fun doc => snd (process doc)) (added_docs pre)))).
  { clear pre Hn. induction pre as [|c pre IH]; intros Hn.
    - split; [reflexivity|].
      simpl app. rewrite handleSnapshot_cons, Hk.
      now rewrite (process_Throw _ _ He).
    - simpl app. rewrite !handleSnapshot_cons. simpl in Hn |- *.
      destruct (change_type c).
      + rewrite (process_Normal (change_doc c)) by (apply Hn; now left).
        rewrite !bind_Normal.
        destruct (IH (fun doc H => Hn doc (or_intror H))) as [-> ->].
        now split.
      + rewrite !bind_ret. now apply IH.
      + rewrite !bind_ret. now apply IH. }
  destruct (H pre Hn) as [H1 H2]. split; [exact H2|].
  now rewrite H2, H1.
Qed.

Lemma rekey_app (temp : object) (hs1 hs2 : list value) :
  rekey ToString temp (hs1 ++ hs2)
  = match rekey ToString temp hs1 with
    | Normal temp1 => rekey ToString temp1 hs2
    | Throw e => Throw e
    end.
Proof.
  revert temp. induction hs1 as [|hit hs1 IH]; intros temp; simpl.
  - reflexivity.
  - destruct (get hit "_id"); [apply IH | reflexivity].
Qed.

(** X26: of hits that share an identifier the re-keying loop keeps the
    last: once the loop is through, the entry under the identifier of the
    last hit of the list is that hit, when the identifier is not
    [__proto__]; for a hit whose [_id] is the string [s], that is the
    entry under [s]. *)
Theorem rekey_last_hit_wins (hs : list value) (hit : value) (temp : object) :
  rekey ToString [] (hs ++ [hit]) = Normal temp ->
  hit_id ToString hit <> "__proto__" ->
  obj_get temp (hit_id ToString hit) = hit /\
  (forall s, string_id hit = Some s -> obj_get temp s = hit).
Proof.
  intros Hr Hk.
  assert (H : obj_get temp (hit_id ToString hit) = hit).
  { revert Hr Hk. rewrite rekey_app.
    destruct (rekey ToString [] hs) as [temp1|e]; [|discriminate].
    simpl. unfold hit_id.
    destruct (get hit "_id") as [id|e]; [|discriminate].
    intros [= <-] Hk. rewrite obj_get_obj_assign by exact Hk.
    now rewrite String.eqb_refl. }
  split; [exact H|].
  intros s Hs. now rewrite <- (string_id_hit_id ToString hit s Hs).
Qed.

End QueryBridgeTraces.

Lemma invoice_query_run :
  let issued := snd (SearchHandler.process example_config (fun _ => None)
                       invoice_query) in
  issued ++ callbacks example_config (fun _ => "") finds_a (fun _ => 7) issued
  = [client_search
       (VObj [("index", VStr "emails"); ("type", VStr "emails");
              ("q", VStr "invoice")])
       "q1";
     ref_update "q1"
       [("response",
         VObj [("hits", VObj [("total", VNum 1); ("hits", VObj [("a", hit_a)])]);
               ("timestamp", VDate 7)])]].
Proof. reflexivity. Qed.

Lemma handleSnapshot_processes_added_in_order_witness :
  let handle := SearchHandler.handleSnapshot example_config (fun _ => None) in
  let run := SearchHandler.process example_config (fun _ => None) in
  let snap :=
    [ {| change_type := added; change_doc := invoice_query |};
      {| change_type := removed; change_doc := no_request |};
      {| change_type := added;
         change_doc := {| doc_id := "q2";
                          doc_data := [("request", VObj [("index", VStr "emails")])] |} |} ] in
  (forall doc, In doc (added_docs snap) -> fst (run doc) = Normal tt) /\
  handle snap
  = (Normal tt,
     [client_search
        (VObj [("index", VStr "emails"); ("type", VStr "emails");
               ("q", VStr "invoice")])
        "q1";
      ref_update "q2" [("response", error_response invalid_query)]]).
Proof.
  assert (Hn : forall doc,
            In doc (added_docs
                      [ {| change_type := added; change_doc := invoice_query |};
                        {| change_type := removed; change_doc := no_request |};
                        {| change_type := added;
                           change_doc :=
                             {| doc_id := "q2";
                                doc_data := [("request",
                                              VObj [("index", VStr "emails")])] |} |} ]) ->
            fst (SearchHandler.process example_config (fun _ => None) doc)
            = Normal tt).
  { intros doc [<-|[<-|[]]]; reflexivity. }
  split; [exact Hn|].
  apply (handleSnapshot_processes_added_in_order example_config
           (fun _ => None)
           [ {| change_type := added; change_doc := invoice_query |};
             {| change_type := removed; change_doc := no_request |};
             {| change_type := added;
                change_doc :=
                  {| doc_id := "q2";
                     doc_data := [("request",
                                   VObj [("index", VStr "emails")])] |} |} ] Hn).
Defined.

Lemma handleSnapshot_stops_at_throw_witness :
  let handle := SearchHandler.handleSnapshot example_config (fun _ => None) in
  let run := SearchHandler.process example_config (fun _ => None) in
  let pre := [ {| change_type := added; change_doc := invoice_query |} ] in
  let change := {| change_type := added; change_doc := no_request |} in
  let post := [ {| change_type := added; change_doc := invoice_query |} ] in
  let e := TypeError "Cannot read property 'index' of undefined" in
  (forall doc, In doc (added_docs pre) -> fst (run doc) = Normal tt) /\
  change_type change = added /\
  fst (run (change_doc change)) = Throw e /\
  handle (pre ++ change :: post)
  = (Throw e, concat (map (fun doc => snd (run doc)) (added_docs pre))) /\
  handle (pre ++ change :: post) = (Throw e, snd (handle pre)).
Proof.
  assert (Hn : forall doc,
            In doc (added_docs
                      [ {| change_type := added; change_doc := invoice_query |} ]) ->
            fst (SearchHandler.process example_config (fun _ => None) doc)
            = Normal tt).
  { intros doc [<-|[]]. reflexivity. }
  split; [exact Hn|]. split; [reflexivity|]. split; [reflexivity|].
  apply (handleSnapshot_stops_at_throw example_config (fun _ => None)
           [ {| change_type := added; change_doc := invoice_query |} ]
           [ {| change_type := added; change_doc := invoice_query |} ]
           {| change_type := added; change_doc := no_request |}
           (TypeError "Cannot read property 'index' of undefined") Hn);
    reflexivity.
Defined.

Lemma rekey_last_hit_wins_witness :
  rekey (fun _ => "") [] ([hit_a; hit_b] ++ [hit_a2])
  = Normal [("a", hit_a2); ("b", hit_b)] /\
  hit_id (fun _ => "") hit_a2 <> "__proto__" /\
  obj_get [("a", hit_a2); ("b", hit_b)] (hit_id (fun _ => "") hit_a2) = hit_a2 /\
  (forall s, string_id hit_a2 = Some s ->
             obj_get [("a", hit_a2); ("b", hit_b)] s = hit_a2).
Proof.
  split; [reflexivity|].
  assert (Hk : hit_id (fun _ => "") hit_a2 <> "__proto__")
    by (vm_compute; discriminate).
  split; [exact Hk|].
  apply (rekey_last_hit_wins (fun _ => "") [hit_a; hit_b] hit_a2);
    [reflexivity | exact Hk].
Defined.

(** The last hit of a list is lost when its [_id] is [__proto__]. *)
Example rekey_last_hit_named_proto :
  rekey (fun _ => "") [] ([hit_a] ++ [hit_proto]) = Normal [("a", hit_a)].
Proof. reflexivity. Qed.

(** ** Re-keying, continued *)

Lemma keys_obj_set (o : object) (k k' : string) (v : value) :
  In k' (keys (obj_set k v o)) <-> k' = k \/ In k' (keys o).
Proof.
  induction o as [|[k0 v0] o IH]; simpl.
  - intuition.
  - destruct (String.eqb_spec k0 k) as [->|Hne]; simpl.
    + intuition.
    + rewrite IH. intuition.
Qed.

Lemma NoDup_obj_set (o : object) (k : string) (v : value) :
  List.NoDup (keys o) -> List.NoDup (keys (obj_set k v o)).
Proof.
  induction o as [|[k0 v0] o IH]; simpl; intros Hnd.
  - repeat constructor. simpl. tauto.
  - inversion Hnd as [|? ? Hnot Hnd']; subst.
    destruct (String.eqb_spec k0 k) as [->|Hne]; simpl.
    + now constructor.
    + constructor; [|now apply IH].
      rewrite keys_obj_set. intros [->|Hin]; [now apply Hne | now apply Hnot].
Qed.

Lemma keys_obj_assign (o : object) (k k' : string) (v : value) :
  In k' (keys (obj_assign k v o))
  <-> (k' = k /\ k <> "__proto__") \/ In k' (keys o).
Proof.
  unfold obj_assign. destruct (String.eqb_spec k "__proto__") as [->|Hne].
  - tauto.
  - rewrite keys_obj_set. tauto.
Qed.

Lemma NoDup_obj_assign (o : object) (k : string) (v : value) :
  List.NoDup (keys o) -> List.NoDup (keys (obj_assign k v o)).
Proof.
  unfold obj_assign. destruct (String.eqb k "__proto__");
    [auto | apply NoDup_obj_set].
Qed.

Lemma rekey_keys (ToString : value -> string) (hs : list value)
    (temp0 temp : object) :
  rekey ToString temp0 hs = Normal temp ->
  List.NoDup (keys temp0) ->
  List.NoDup (keys temp) /\
  forall k, In k (keys temp) <->
            In k (keys temp0) \/
            (k <> "__proto__" /\
             exists hit, In hit hs /\ hit_id ToString hit = k).
Proof.
  revert temp0. induction hs as [|hit hs IH]; intros temp0; simpl.
  - intros [= <-] Hnd. split; [exact Hnd|]. intros k. split; [auto|].
    intros [H|[_ [hit [[] _]]]]. exact H.
  - destruct (get hit "_id") as [id|e] eqn:Hg; [|discriminate].
    intros Hr Hnd.
    destruct (IH _ Hr (NoDup_obj_assign temp0 _ hit Hnd)) as [Hnd' Hk].
    split; [exact Hnd'|]. intros k. rewrite Hk, keys_obj_assign.
    assert (Hid : hit_id ToString hit = SearchHandler.toString ToString id).
    { unfold hit_id. now rewrite Hg. }
    split.
    + intros [[[-> Hne]|Hin]|[Hne [hit' [Hin' Hid']]]]; eauto 6.
    + intros [Hin|[Hne [hit' [[<-|Hin'] Hid']]]]; eauto 6.
      left. left. rewrite <- Hid', Hid in *. now split.
Qed.

(** X27: when the re-keying loop is through, the object it built has one
    entry for each identifier other than [__proto__] that occurs among
    the hits, and none besides: its keys are pairwise distinct and are
    exactly the identifiers of the hits, [__proto__] left out; so the
    string [_id] of a hit is among the keys unless it is [__proto__]. *)
Theorem rekey_keys_are_hit_ids (ToString : value -> string)
    (hs : list value) (temp : object) :
  rekey ToString [] hs = Normal temp ->
  List.NoDup (keys temp) /\
  (forall k, In k (keys temp) <->
             k <> "__proto__" /\
             exists hit, In hit hs /\ hit_id ToString hit = k) /\
  (forall hit s, In hit hs -> string_id hit = Some s -> s <> "__proto__" ->
                 In s (keys temp)).
Proof.
  intros Hr. destruct (rekey_keys ToString hs [] temp Hr) as [Hnd Hk].
  - constructor.
  - split; [exact Hnd|].
    assert (H : forall k, In k (keys temp) <->
                          k <> "__proto__" /\
                          exists hit, In hit hs /\ hit_id ToString hit = k).
    { intros k. rewrite Hk. simpl. tauto. }
    split; [exact H|].
    intros hit s Hin Hs Hne. apply H. split; [exact Hne|].
    exists hit. split; [exact Hin|]. now apply string_id_hit_id.
Qed.

Lemma rekey_keys_are_hit_ids_witness :
  let hs := [hit_a; hit_proto; hit_b; hit_a2] in
  let temp := [("a", hit_a2); ("b", hit_b)] in
  rekey (fun _ => "") [] hs = Normal temp /\
  List.NoDup (keys temp) /\
  (forall k, In k (keys temp) <->
             k <> "__proto__" /\
             exists hit, In hit hs /\ hit_id (fun _ => "") hit = k) /\
  (forall hit s, In hit hs -> string_id hit = Some s -> s <> "__proto__" ->
                 In s (keys temp)).
Proof.
  split; [reflexivity|].
  apply (rekey_keys_are_hit_ids (fun _ => "")
           [hit_a; hit_proto; hit_b; hit_a2]).
  reflexivity.
Defined.

(** ** The cleanup sweep, continued *)

Section CleanupMore.

Variable config : Config.

Local Abbreviation stamp := [FB_RES config; "timestamp"].

Lemma cleanup_lookup_full (now : Z) (st : store) (id : string) :
  cleanup config now st !! id =
    match st !! id with
    | Some d =>
        if selected stamp (now - CLEANUP_INTERVAL config) d
        then None else Some d
    | None => None
    end.
Proof.
  destruct (st !! id) as [d|] eqn:Hd.
  - now apply cleanup_lookup.
  - unfold cleanup. now apply delete_all_gone.
Qed.

Lemma selected_mono (bound1 bound2 : Z) (d : object) :
  bound1 <= bound2 ->
  selected stamp bound1 d = true -> selected stamp bound2 d = true.
Proof.
  unfold selected. intros Hle. destruct (field d stamp) as [v|]; [|auto].
  destruct v; simpl; auto. intros H. apply Z.leb_le in H. apply Z.leb_le. lia.
Qed.

(** X28: a sweep only deletes: a record that is there after a sweep was
    there before it with the same fields; and a request that has not
    been answered, its response field missing or [null], is still there
    after the sweep, however old it is. *)
Theorem cleanup_only_deletes_and_spares_unanswered (now : Z) (st : store) :
  (forall id d, cleanup config now st !! id = Some d -> st !! id = Some d) /\
  (forall id d,
     st !! id = Some d ->
     own d (FB_RES config) = None \/ own d (FB_RES config) = Some VNull ->
     cleanup config now st !! id = Some d).
Proof.
  split; intros id d.
  - rewrite cleanup_lookup_full. destruct (st !! id) as [d0|]; [|discriminate].
    now destruct (selected _ _ d0).
  - intros Hd Hr. rewrite cleanup_lookup_full, Hd.
    unfold selected, field. simpl. now destruct Hr as [-> | ->].
Qed.

(** X29: a later sweep subsumes an earlier one: sweeping at two times,
    in either order, leaves what the sweep at the later time alone
    leaves; in particular a sweep repeated at the same time deletes
    nothing more. *)
Theorem cleanup_later_sweep_subsumes (now1 now2 : Z) (st : store) :
  now1 <= now2 ->
  cleanup config now2 (cleanup config now1 st) = cleanup config now2 st /\
  cleanup config now1 (cleanup config now2 st) = cleanup config now2 st.
Proof.
  intros Hle. split; apply map_eq; intros id; rewrite !cleanup_lookup_full;
    destruct (st !! id) as [d|]; try reflexivity.
  - destruct (selected stamp (now1 - _) d) eqn:H1.
    + now rewrite (selected_mono (now1 - CLEANUP_INTERVAL config)
                     (now2 - CLEANUP_INTERVAL config) d) by (lia || exact H1).
    + reflexivity.
  - destruct (selected stamp (now2 - _) d) eqn:H2; [reflexivity|].
    destruct (selected stamp (now1 - _) d) eqn:H1; [|reflexivity].
    rewrite (selected_mono (now1 - CLEANUP_INTERVAL config)
               (now2 - CLEANUP_INTERVAL config) d) in H2 by (lia || exact H1).
    discriminate.
Qed.

(** X30: the response [send] writes for a search result lives for the
    retention interval: a sweep deletes the record exactly when it runs
    at or after the time of the response plus the interval, and before
    that leaves the record with the stamped result as its response. *)
Theorem sent_response_lives_one_interval (new_Date : string -> Z)
    (ref : string) (fields d : object) (st : store) (now : Z) :
  st !! ref = Some d ->
  let written :=
    obj_set (FB_RES config)
      (VObj (obj_set "timestamp" (VDate (new_Date ref)) fields)) d in
  let st' :=
    fold_left write (snd (send config new_Date ref (VObj fields))) st in
  st' !! ref = Some written /\
  cleanup config now st' !! ref =
    if new_Date ref + CLEANUP_INTERVAL config <=? now then None
    else Some written.
Proof.
  intros Hd written st'.
  assert (Hw : st' !! ref = Some written).
  { unfold st', send. simpl. rewrite !String.eqb_refl. simpl.
    unfold update. now rewrite lookup_alter_eq, Hd. }
  split; [exact Hw|]. rewrite cleanup_lookup_full, Hw.
  unfold selected, field, written. simpl.
  rewrite own_obj_set, String.eqb_refl, own_obj_set. simpl.
  destruct (Z.leb_spec (new_Date ref) (now - CLEANUP_INTERVAL config));
    destruct (Z.leb_spec (new_Date ref + CLEANUP_INTERVAL config) now);
    try reflexivity; lia.
Qed.

End CleanupMore.

Lemma cleanup_later_sweep_subsumes_witness :
  let st : store := {[ "q1" := answered ]} in
  100000 <= 200000 /\
  cleanup example_config 200000 (cleanup example_config 100000 st)
  = cleanup example_config 200000 st /\
  cleanup example_config 100000 (cleanup example_config 200000 st)
  = cleanup example_config 200000 st.
Proof.
  split; [lia|].
  apply (cleanup_later_sweep_subsumes example_config 100000 200000
           {[ "q1" := answered ]}).
  lia.
Defined.

Lemma sent_response_lives_one_interval_witness :
  let d := doc_data invoice_query in
  let st : store := {[ "q1" := d ]} in
  let fields := [("hits", VObj [("total", VNum 0)])] in
  let written :=
    obj_set (FB_RES example_config)
      (VObj (obj_set "timestamp" (VDate 1000) fields)) d in
  let st' :=
    fold_left write
      (snd (send example_config (fun _ => 1000) "q1" (VObj fields))) st in
  st !! "q1" = Some d /\
  st' !! "q1" = Some written /\
  cleanup example_config 61000 st' !! "q1" =
    if 1000 + CLEANUP_INTERVAL example_config <=? 61000 then None
    else Some written.
Proof.
  split; [reflexivity|].
  apply (sent_response_lives_one_interval example_config (fun _ => 1000)
           "q1" [("hits", VObj [("total", VNum 0)])]
           (doc_data invoice_query) {[ "q1" := doc_data invoice_query ]}
           61000).
  reflexivity.
Defined.

(** At the bound itself the record goes: the sweep at time 61000 deletes
    the response of time 1000 under a retention of 60000. *)
Example sweep_at_the_bound :
  cleanup example_config 61000
    {[ "q1" := [("response", VObj [("total", VNum 0);
                                   ("timestamp", VDate 1000)])] ]}
  = ∅.
Proof. vm_compute. reflexivity. Qed.
